(** * mise-action: a shallow embedding of src/index.ts

    The action is a straight-line async pipeline that reads its inputs from
    the process environment, writes configuration files, restores a cache,
    downloads and runs the mise binary and exports the environment reported
    by [mise env --json].

    The embedding is a state and exception monad over a [world] that holds
    the mutable process state ([process.env], the file system) and an
    append-only trace of the workflow commands and external calls issued by
    the action.  The results the outside world gives back (subprocess
    output, cache service, file-system failures) are read-only oracles of
    the world.  The GitHub toolkit functions the action calls
    (@actions/core, @actions/exec, @actions/cache, @actions/glob) are
    modelled after the toolkit's own code in module-level comments. *)

From stdpp Require Import base gmap strings list pretty.
From Stdlib Require Import Ascii String ZArith.

Local Open Scope string_scope.
Local Open Scope list_scope.

(** ** Thrown values and results *)

(** A thrown JavaScript value: an [Error] instance (Error, TypeError,
    SyntaxError, ...) carries its [message]; any other value is opaque. *)
Inductive exn :=
| ErrorV (message : string)
| OtherV (v : string).

Inductive outcome (A : Type) :=
| Normal (a : A)
| Throw (e : exn).
Arguments Normal {A} a.
Arguments Throw {A} e.

(** [exec.ExecOutput] *)
Record ExecOutput := mkExecOutput {
  exitCode : Z;
  stdout : string;
  stderr : string
}.

(** Observable effects, in the order they are issued. *)
Inductive event :=
| EvInfo (s : string)                       (* core.info *)
| EvStartGroup (name : string)              (* core.startGroup *)
| EvEndGroup                                (* core.endGroup *)
| EvExportVariable (k v : string)           (* core.exportVariable *)
| EvAddPath (p : string)                    (* core.addPath *)
| EvSetOutput (k v : string)                (* core.setOutput *)
| EvSaveState (k v : string)                (* core.saveState *)
| EvSetFailed (msg : string)                (* core.setFailed *)
| EvRestoreCache (paths : list string) (key : string)  (* cache.restoreCache *)
| EvExec (cmd : string) (args : list string) (cwd : string)  (* a subprocess *)
| EvMkdir (p : string)                      (* fs.promises.mkdir, recursive *)
| EvWriteFile (p body : string).            (* fs.promises.writeFile, utf8 *)

Record world := mkWorld {
  env : gmap string string;             (* process.env *)
  files : gmap string string;           (* file contents, by path *)
  trace : list event;                   (* effects issued so far, oldest first *)
  cwd : string;                         (* process.cwd() *)
  platform : string;                    (* process.platform *)
  arch : string;                        (* os.arch() *)
  mise_data_dir : string;               (* what miseDir() returns *)
  exec_result : gmap string string -> string -> list string -> string -> ExecOutput;
  which : string -> string;             (* tool path resolution of @actions/io *)
  restore_result : list string -> string -> outcome (option string);
  write_error : string -> option string (* a failing file-system call, by path *)
}.

Definition set_env (e : gmap string string) (w : world) : world :=
  mkWorld e (files w) (trace w) (cwd w) (platform w) (arch w) (mise_data_dir w)
    (exec_result w) (which w) (restore_result w) (write_error w).

Definition set_files (f : gmap string string) (w : world) : world :=
  mkWorld (env w) f (trace w) (cwd w) (platform w) (arch w) (mise_data_dir w)
    (exec_result w) (which w) (restore_result w) (write_error w).

Definition set_trace (t : list event) (w : world) : world :=
  mkWorld (env w) (files w) t (cwd w) (platform w) (arch w) (mise_data_dir w)
    (exec_result w) (which w) (restore_result w) (write_error w).

(** ** The monad *)

Definition M (A : Type) : Type := world -> outcome A * world.

Global Instance M_ret : MRet M := fun A a w => (Normal a, w).
Global Instance M_bind : MBind M := fun A B k m w =>
  match m w with
  | (Normal a, w') => k a w'
  | (Throw e, w') => (Throw e, w')
  end.

Definition throw {A} (e : exn) : M A := fun w => (Throw e, w).
Definition get_world : M world := fun w => (Normal w, w).
Definition modify (f : world -> world) : M unit := fun w => (Normal tt, f w).
Definition emit (e : event) : M unit := modify (fun w => set_trace (trace w ++ [e]) w).

(** [try { m } catch (err) { h(err) }] *)
Definition try_catch {A} (m : M A) (h : exn -> M A) : M A := fun w =>
  match m w with
  | (Normal a, w') => (Normal a, w')
  | (Throw e, w') => h e w'
  end.

(** [try { m } finally { fin }] *)
Definition try_finally {A} (m : M A) (fin : M unit) : M A := fun w =>
  match m w with
  | (r, w') =>
      match fin w' with
      | (Normal _, w'') => (r, w'')
      | (Throw e, w'') => (Throw e, w'')
      end
  end.

(** ** JavaScript string operations *)

Definition nl : string := String "010"%char EmptyString.
Definition dq : string := String "034"%char EmptyString.

(** [s.split(d)] for a one-character separator. *)
Fixpoint split_go (d : ascii) (s cur : string) : list string :=
  match s with
  | EmptyString => [cur]
  | String c s' =>
      if Ascii.eqb c d then cur :: split_go d s' EmptyString
      else split_go d s' (cur +:+ String c EmptyString)
  end.

Definition split (d : ascii) (s : string) : list string := split_go d s EmptyString.

(** The ASCII members of the white space and line terminators that
    [String.prototype.trim] removes. *)
Definition is_js_space (c : ascii) : bool :=
  match nat_of_ascii c with
  | 9 | 10 | 11 | 12 | 13 | 32 => true
  | _ => false
  end.

Fixpoint trim_start (s : string) : string :=
  match s with
  | EmptyString => EmptyString
  | String c s' => if is_js_space c then trim_start s' else s
  end.

Definition string_rev (s : string) : string :=
  string_of_list_ascii (rev (list_ascii_of_string s)).

(** [s.trim()] *)
Definition trim (s : string) : string := string_rev (trim_start (string_rev (trim_start s))).

Definition map_string (f : ascii -> ascii) (s : string) : string :=
  string_of_list_ascii (map f (list_ascii_of_string s)).

Definition ascii_upper (c : ascii) : ascii :=
  let n := nat_of_ascii c in
  if (97 <=? n)%nat && (n <=? 122)%nat then ascii_of_nat (n - 32)%nat else c.

Definition space_to_underscore (c : ascii) : ascii :=
  if Ascii.eqb c " "%char then "_"%char else c.

(** JavaScript truthiness of a possibly undefined string. *)
Definition truthy (o : option string) : bool :=
  match o with
  | Some s => negb (String.eqb s EmptyString)
  | None => false
  end.

(** [a ?? d] *)
Definition nullish_or {A} (o : option A) (d : A) : A :=
  match o with Some a => a | None => d end.

(** ** @actions/core *)

(** [toCommandValue] of a boolean: [JSON.stringify(b)]. *)
Definition toCommandValue_bool (b : bool) : string := if b then "true" else "false".

(** [getInput(name)]: [(process.env['INPUT_' + NAME] || '').trim()], with
    spaces of the name turned into underscores and the name upper-cased. *)
Definition input_var (name : string) : string :=
  "INPUT_" +:+ map_string ascii_upper (map_string space_to_underscore name).

Definition input_value (w : world) (name : string) : string :=
  trim (default EmptyString (env w !! input_var name)).

Definition getInput (name : string) : M string :=
  w ← get_world;
  mret (input_value w name).

Definition getBooleanInput_error (name : string) : string :=
  "Input does not meet YAML 1.2 " +:+ dq +:+ "Core Schema" +:+ dq
  +:+ " specification: " +:+ name +:+ nl
  +:+ "Support boolean input list: `true | True | TRUE | false | False | FALSE`".

(** [getBooleanInput(name)]: anything outside the YAML 1.2 core booleans
    throws a [TypeError]. *)
Definition getBooleanInput (name : string) : M bool :=
  val ← getInput name;
  if bool_decide (val ∈ ["true"; "True"; "TRUE"]) then mret true
  else if bool_decide (val ∈ ["false"; "False"; "FALSE"]) then mret false
  else throw (ErrorV (getBooleanInput_error name)).

Definition info (s : string) : M unit := emit (EvInfo s).
Definition startGroup (name : string) : M unit := emit (EvStartGroup name).
Definition endGroup : M unit := emit EvEndGroup.

(** [group(name, fn)]: [startGroup(name); try { return await fn() } finally { endGroup() }] *)
Definition group {A} (name : string) (fn : M A) : M A :=
  startGroup name;; try_finally fn endGroup.

(** [exportVariable(k, v)]: [process.env[k] = v] and a workflow command. *)
Definition exportVariable (k v : string) : M unit :=
  modify (fun w => set_env (<[k := v]> (env w)) w);;
  emit (EvExportVariable k v).

(** [path.delimiter] *)
Definition path_delimiter (w : world) : ascii :=
  if String.eqb (platform w) "win32" then ";"%char else ":"%char.

(** [addPath(p)]: a workflow command and
    [process.env['PATH'] = `${p}${path.delimiter}${process.env['PATH']}`]. *)
Definition addPath (p : string) : M unit :=
  emit (EvAddPath p);;
  modify (fun w =>
    set_env (<["PATH" := p +:+ String (path_delimiter w) EmptyString
                  +:+ default "undefined" (env w !! "PATH")]> (env w)) w).

Definition setOutput (k v : string) : M unit := emit (EvSetOutput k v).
Definition saveState (k v : string) : M unit := emit (EvSaveState k v).

(** [setFailed(msg)]: [process.exitCode = 1] and an error annotation. *)
Definition setFailed (msg : string) : M unit := emit (EvSetFailed msg).

(** ** @actions/exec *)

(** [getExecOutput(cmd, args, { cwd })]: the options set no
    [ignoreReturnCode], so the tool runner rejects on a non-zero exit code
    with [The process '<tool path>' failed with exit code <n>]. *)
Definition getExecOutput (cmd : string) (args : list string) (dir : string)
  : M ExecOutput :=
  w ← get_world;
  emit (EvExec cmd args dir);;
  let out := exec_result w (env w) cmd args dir in
  if bool_decide (exitCode out = 0%Z) then mret out
  else throw (ErrorV ("The process '" +:+ which w cmd
                      +:+ "' failed with exit code " +:+ pretty (exitCode out))).

(** [exec(cmd, args)]: same runner, working directory [process.cwd()]. *)
Definition exec (cmd : string) (args : list string) : M Z :=
  w ← get_world;
  out ← getExecOutput cmd args (cwd w);
  mret (exitCode out).

(** ** @actions/cache *)

Definition restoreCache (paths : list string) (key : string) : M (option string) :=
  emit (EvRestoreCache paths key);;
  w ← get_world;
  match restore_result w paths key with
  | Normal r => mret r
  | Throw e => throw e
  end.

(** ** fs *)

Definition fs_writeFile (p body : string) : M unit :=
  w ← get_world;
  match write_error w p with
  | Some m => throw (ErrorV m)
  | None => modify (fun w => set_files (<[p := body]> (files w)) w);; emit (EvWriteFile p body)
  end.

Definition fs_mkdir (p : string) : M unit :=
  w ← get_world;
  match write_error w p with
  | Some m => throw (ErrorV m)
  | None => emit (EvMkdir p)
  end.

(** [path.join(a, b)] for a relative segment [b]. *)
Definition path_join (a b : string) : string := a +:+ "/" +:+ b.

(** Modelled from the spec: [miseDir] of src/utils.ts, which is not under
    src/; it returns the tool's data directory. *)
Definition miseDir : M string := w ← get_world; mret (mise_data_dir w).

(** ** src/index.ts *)

Section Pipeline.

(** [glob.hashFiles(patterns)]: a digest of the contents of the files the
    newline-separated patterns match. *)
Variable hashFiles : gmap string string -> string -> string.

(** [JSON.parse]: a SyntaxError message, or the entries of the parsed
    object in [Object.entries] order. *)
Variable JSON_parse : string -> string + list (string * string).

Definition setEnv (k v : string) : M unit :=
  info ("Setting " +:+ k +:+ "=" +:+ v);;
  exportVariable k v.

Definition setEnvIfUnset (k v : string) : M unit :=
  w ← get_world;
  if negb (truthy (env w !! k)) then setEnv k v else mret tt.

Definition getExperimental : M bool :=
  experimentalString ← getInput "experimental";
  mret (if String.eqb experimentalString "true" then true else false).

Definition setEnvVarsPreInstall : M unit :=
  startGroup "Setting env vars for Mise";;
  w ← get_world;
  setEnvIfUnset "MISE_TRUSTED_CONFIG_PATHS" (cwd w);;
  setEnvIfUnset "MISE_YES" "1";;
  experimental ← getExperimental;
  setEnvIfUnset "MISE_EXPERIMENTAL" (if (experimental : bool) then "1" else "0").

(** [core.getInput('install_dir') || process.cwd()] *)
Definition or_cwd (d : string) (w : world) : string :=
  if String.eqb d EmptyString then cwd w else d.

Definition mise (args : list string) : M ExecOutput :=
  group ("Running mise " +:+ String.concat " " args)
    (d ← getInput "install_dir";
     w ← get_world;
     getExecOutput "mise" args (or_cwd d w)).

Definition testMise : M ExecOutput := mise ["--version"].
Definition miseInstall : M ExecOutput := mise ["install"].
Definition miseEnv : M ExecOutput := mise ["env"; "--json"].

Fixpoint addPathElements (els : list string) : M unit :=
  match els with
  | [] => mret tt
  | pathElement :: rest =>
      info ("Adding " +:+ pathElement +:+ " to PATH");;
      addPath pathElement;;
      addPathElements rest
  end.

(** The loop over [Object.entries(envVars)]. *)
Fixpoint exportEntries (entries : list (string * string)) : M unit :=
  match entries with
  | [] => mret tt
  | (key, value) :: rest =>
      (if negb (String.eqb key "PATH") then setEnv key value
       else w ← get_world; addPathElements (split (path_delimiter w) value));;
      exportEntries rest
  end.

Definition setEnvVars : M unit :=
  envOutput ← miseEnv;
  startGroup "Setting env vars";;
  if bool_decide (exitCode envOutput = 0%Z) then
    match JSON_parse (stdout envOutput) with
    | inl msg => throw (ErrorV msg)
    | inr envVars => exportEntries envVars
    end
  else throw (ErrorV ("Failed to run mise env: " +:+ stderr envOutput)).

Definition cache_patterns : list string :=
  ["**/.config/mise/config.toml"; "**/.mise.*.toml"; "**/.mise.toml";
   "**/.mise/config.toml"; "**/.tool-versions"].

Definition getOS : M string :=
  w ← get_world;
  mret (if String.eqb (platform w) "darwin" then "macos" else platform w).

Definition cache_key (prefix os arch fileHash : string) : string :=
  prefix +:+ "-" +:+ os +:+ "-" +:+ arch +:+ "-" +:+ fileHash.

Definition restoreMiseCache : M unit :=
  startGroup "Restoring mise cache";;
  cachePath ← miseDir;
  w ← get_world;
  let fileHash := hashFiles (files w) (String.concat nl cache_patterns) in
  p ← getInput "cache_key_prefix";
  let prefix := if String.eqb p EmptyString then "mise-v0" else p in
  os ← getOS;
  let primaryKey := cache_key prefix os (arch w) fileHash in
  cache_save ← getBooleanInput "cache_save";
  saveState "CACHE" (toCommandValue_bool (nullish_or (Some cache_save) true));;
  saveState "PRIMARY_KEY" primaryKey;;
  saveState "MISE_DIR" cachePath;;
  cacheKey ← restoreCache [cachePath] primaryKey;
  setOutput "cache-hit" (toCommandValue_bool (truthy cacheKey));;
  match (cacheKey : option string) with
  | Some k =>
      if negb (truthy cacheKey) then info ("mise cache not found for " +:+ primaryKey)
      else saveState "CACHE_KEY" k;; info ("mise cache restored from key: " +:+ k)
  | None => info ("mise cache not found for " +:+ primaryKey)
  end.

Definition setupMise (version : string) : M unit :=
  startGroup (if String.eqb version EmptyString then "Setup mise"
              else "Setup mise@" +:+ version);;
  d ← miseDir;
  let miseBinDir := path_join d "bin" in
  os ← getOS;
  w ← get_world;
  let url :=
    if String.eqb version EmptyString
    then "https://mise.jdx.dev/mise-latest-" +:+ os +:+ "-" +:+ arch w
    else "https://mise.jdx.dev/v" +:+ version +:+ "/mise-v" +:+ version
           +:+ "-" +:+ os +:+ "-" +:+ arch w in
  fs_mkdir miseBinDir;;
  _ ← exec "curl" ["-fsSL"; url; "--output"; path_join miseBinDir "mise"];
  _ ← exec "chmod" ["+x"; path_join miseBinDir "mise"];
  addPath miseBinDir.

Definition writeFile (p body : string) : M unit :=
  group ("Writing " +:+ p)
    (info ("Body:" +:+ nl +:+ body);;
     fs_writeFile p body).

Definition setToolVersions : M unit :=
  toolVersions ← getInput "tool_versions";
  if truthy (Some toolVersions) then writeFile ".tool-versions" toolVersions else mret tt.

Definition setMiseToml : M unit :=
  toml ← getInput "mise_toml";
  if truthy (Some toml) then writeFile ".mise.toml" toml else mret tt.

(** The body of the [try] block of [run]. *)
Definition run_body : M unit :=
  setToolVersions;;
  setMiseToml;;
  c ← getBooleanInput "cache";
  (if (c : bool) then restoreMiseCache else setOutput "cache-hit" (toCommandValue_bool false));;
  version ← getInput "version";
  setupMise version;;
  setEnvVarsPreInstall;;
  _ ← testMise;
  i ← getBooleanInput "install";
  (if (i : bool) then _ ← miseInstall; mret tt else mret tt);;
  setEnvVars.

Definition run_handler (err : exn) : M unit :=
  match err with
  | ErrorV message => setFailed message
  | OtherV v => throw (OtherV v)
  end.

Definition run : M unit := try_catch run_body run_handler.

End Pipeline.

(** ** Observations on traces *)

(** Events that neither restore a cache nor set the [cache-hit] output. *)
Definition quiet (e : event) : bool :=
  match e with
  | EvRestoreCache _ _ => false
  | EvSetOutput k _ => negb (String.eqb k "cache-hit")
  | _ => true
  end.

Definition Quiet (l : list event) : Prop := Forall (fun e => quiet e = true) l.

(** The values given to output [k], in order. *)
Definition outputs (k : string) (l : list event) : list string :=
  flat_map (fun e => match e with
                     | EvSetOutput k' v => if String.eqb k k' then [v] else []
                     | _ => []
                     end) l.

(** The values saved as state [k], in order. *)
Definition saved_states (k : string) (l : list event) : list string :=
  flat_map (fun e => match e with
                     | EvSaveState k' v => if String.eqb k k' then [v] else []
                     | _ => []
                     end) l.

(** The paths given to [core.addPath], in order. *)
Definition added_paths (l : list event) : list string :=
  flat_map (fun e => match e with EvAddPath p => [p] | _ => [] end) l.

Definition saved_before (pre : list event) (paths : list string) (key : string) : Prop :=
  (exists c, In (EvSaveState "CACHE" c) pre) /\
  In (EvSaveState "PRIMARY_KEY" key) pre /\
  (exists d, paths = [d] /\ In (EvSaveState "MISE_DIR" d) pre).

(** Every cache restore in [l] comes after the three states were saved. *)
Definition restore_guarded (l : list event) : Prop :=
  forall pre post paths key,
    l = pre ++ EvRestoreCache paths key :: post -> saved_before pre paths key.

Fixpoint guarded_from (pre l : list event) : Prop :=
  match l with
  | [] => True
  | e :: rest =>
      match e with
      | EvRestoreCache paths key => saved_before pre paths key
      | _ => True
      end /\ guarded_from (pre ++ [e]) rest
  end.

(** Trace properties that hold of the empty extension and compose. *)
Class TraceMonoid (Q : list event -> Prop) := {
  tm_nil : Q [];
  tm_app : forall l1 l2, Q l1 -> Q l2 -> Q (l1 ++ l2)
}.

(** Every run of [m] only appends to the trace, and the appended events
    satisfy [Q]. *)
Definition traces {A} (Q : list event -> Prop) (m : M A) : Prop :=
  forall w, exists ext, trace (snd (m w)) = trace w ++ ext /\ Q ext.

(** The only subprocesses the action starts and the only files it writes. *)
Definition allowed_event (e : event) : bool :=
  match e with
  | EvExec cmd _ _ => bool_decide (cmd ∈ ["mise"; "curl"; "chmod"])
  | EvWriteFile p _ => bool_decide (p ∈ [".tool-versions"; ".mise.toml"])
  | _ => true
  end.

Definition Allowed (l : list event) : Prop := Forall (fun e => allowed_event e = true) l.

(** ** The cache stage, step by step *)

Definition true_values : list string := ["true"; "True"; "TRUE"].
Definition false_values : list string := ["false"; "False"; "FALSE"].

(** What [getBooleanInput name] returns in world [w], if it returns. *)
Definition boolean_input (w : world) (name : string) : option bool :=
  let val := input_value w name in
  if bool_decide (val ∈ true_values) then Some true
  else if bool_decide (val ∈ false_values) then Some false
  else None.

Definition cache_prefix (w : world) : string :=
  let p := input_value w "cache_key_prefix" in
  if String.eqb p EmptyString then "mise-v0" else p.

Definition os_name (w : world) : string :=
  if String.eqb (platform w) "darwin" then "macos" else platform w.

Definition primaryKey_of (hashFiles : gmap string string -> string -> string)
    (w : world) : string :=
  cache_key (cache_prefix w) (os_name w) (arch w)
    (hashFiles (files w) (String.concat nl cache_patterns)).

(** The events [restoreMiseCache] issues after [cache-hit]. *)
Definition restore_tail (primaryKey : string) (cacheKey : option string) : list event :=
  match cacheKey with
  | Some k =>
      if negb (truthy cacheKey) then [EvInfo ("mise cache not found for " +:+ primaryKey)]
      else [EvSaveState "CACHE_KEY" k; EvInfo ("mise cache restored from key: " +:+ k)]
  | None => [EvInfo ("mise cache not found for " +:+ primaryKey)]
  end.

Definition restore_events (cache_save : bool) (dir key : string) : list event :=
  [EvStartGroup "Restoring mise cache";
   EvSaveState "CACHE" (toCommandValue_bool cache_save);
   EvSaveState "PRIMARY_KEY" key;
   EvSaveState "MISE_DIR" dir;
   EvRestoreCache [dir] key].

(** ** The environment stages, step by step *)

(** The environment after [setEnvIfUnset k v]. *)
Definition set_if_unset (k v : string) (e : gmap string string) : gmap string string :=
  if negb (truthy (e !! k)) then <[k := v]> e else e.

Definition set_if_unset_events (k v : string) (e : gmap string string) : list event :=
  if negb (truthy (e !! k)) then [EvInfo ("Setting " +:+ k +:+ "=" +:+ v); EvExportVariable k v]
  else [].

Definition preinstall_vars : list string :=
  ["MISE_TRUSTED_CONFIG_PATHS"; "MISE_YES"; "MISE_EXPERIMENTAL"].

(** The environment after [setEnvVarsPreInstall]. *)
Definition preinstall_env (w : world) : gmap string string :=
  set_if_unset "MISE_EXPERIMENTAL"
    (if (if String.eqb (input_value w "experimental") "true" then true else false)
     then "1" else "0")
    (set_if_unset "MISE_YES" "1"
       (set_if_unset "MISE_TRUSTED_CONFIG_PATHS" (cwd w) (env w))).

(** The value [setEnvVarsPreInstall] gives the variable [k] when it sets it. *)
Definition preinstall_default (w : world) (k : string) : string :=
  if String.eqb k "MISE_TRUSTED_CONFIG_PATHS" then cwd w
  else if String.eqb k "MISE_YES" then "1"
  else if (if String.eqb (input_value w "experimental") "true" then true else false)
  then "1" else "0".

(** The environment after one [core.addPath(p)]. *)
Definition add_path_env (d : ascii) (e : gmap string string) (p : string)
  : gmap string string :=
  <["PATH" := p +:+ String d EmptyString +:+ default "undefined" (e !! "PATH")]> e.

Definition path_events (els : list string) : list event :=
  flat_map (fun p => [EvInfo ("Adding " +:+ p +:+ " to PATH"); EvAddPath p]) els.

(** The environment after one iteration of the loop of [setEnvVars]. *)
Definition export_env (d : ascii) (e : gmap string string) (kv : string * string)
  : gmap string string :=
  if negb (String.eqb kv.1 "PATH") then <[kv.1 := kv.2]> e
  else foldl (add_path_env d) e (split d kv.2).

Definition export_events (d : ascii) (kv : string * string) : list event :=
  if negb (String.eqb kv.1 "PATH")
  then [EvInfo ("Setting " +:+ kv.1 +:+ "=" +:+ kv.2); EvExportVariable kv.1 kv.2]
  else path_events (split d kv.2).

Definition mise_events (args : list string) (dir : string) : list event :=
  [EvStartGroup ("Running mise " +:+ String.concat " " args); EvExec "mise" args dir; EvEndGroup].

(** The configuration writer ran to its end. *)
Definition configs_written (w : world) : Prop :=
  fst ((setToolVersions;; setMiseToml) w) = Normal tt.

(** The number of occurrences of the character [d] in [s]. *)
Fixpoint count_char (d : ascii) (s : string) : nat :=
  match s with
  | EmptyString => 0
  | String c s' => (if Ascii.eqb c d then 1 else 0) + count_char d s'
  end.

(** JS [s.includes(sub)] *)
Definition includes (s sub : string) : bool :=
  match String.index 0 sub s with Some _ => true | None => false end.

(** ** Sample inputs *)

(** A runner where [mise env --json] prints [J], or exits with 1 and the
    standard error [boom] when [fail_env] is set; the other subprocesses
    succeed. *)
Definition sample_exec (fail_env : bool) (e : gmap string string) (cmd : string)
    (args : list string) (dir : string) : ExecOutput :=
  if bool_decide (args = ["env"; "--json"]) then
    if fail_env then mkExecOutput 1 "" "boom" else mkExecOutput 0 "J" ""
  else mkExecOutput 0 "" "".

Definition sample_world (fail_env : bool) (e : gmap string string) : world :=
  mkWorld e ∅ [] "/w" "linux" "x64" "/d" (sample_exec fail_env)
    (fun c => "/usr/bin/" +:+ c) (fun _ _ => Normal None) (fun _ => None).

(** [JSON.parse] of the dump [{"FOO":"bar","PATH":"/a:/b"}]. *)
Definition sample_json (s : string) : string + list (string * string) :=
  inr [("FOO", "bar"); ("PATH", "/a:/b")].

(** A world whose PATH is [/usr/bin]. *)
Definition path_world : world := sample_world false (<["PATH" := "/usr/bin"]> ∅).

(** A world where [mise env --json] fails, with the [cache] and [install]
    inputs false. *)
Definition failing_world : world :=
  sample_world true (<["INPUT_CACHE" := "false"]> (<["INPUT_INSTALL" := "false"]>
                       (<["PATH" := "/usr/bin"]> ∅))).

(** A world where [MISE_YES] is present with the empty value. *)
Definition empty_yes_world : world := sample_world false (<["MISE_YES" := ""]> ∅).

(** A world whose [tool_versions] input ends with a newline. *)
Definition tool_world : world :=
  sample_world false (<["INPUT_TOOL_VERSIONS" := "node 20" +:+ nl]> ∅).

(** A world with the [cache_save] input true; its cache service has no
    entry. *)
Definition cache_world : world := sample_world false (<["INPUT_CACHE_SAVE" := "true"]> ∅).

(** A world where [curl] exits with 22. *)
Definition curl_failing_world : world :=
  mkWorld ∅ ∅ [] "/w" "linux" "x64" "/d"
    (fun _ cmd _ _ => if String.eqb cmd "curl" then mkExecOutput 22 "" ""
                      else mkExecOutput 0 "" "")
    (fun c => "/usr/bin/" +:+ c) (fun _ _ => Normal None) (fun _ => None).

(** A world where every file-system write fails. *)
Definition readonly_world (e : gmap string string) : world :=
  mkWorld e ∅ [] "/w" "linux" "x64" "/d" (sample_exec false)
    (fun c => "/usr/bin/" +:+ c) (fun _ _ => Normal None)
    (fun p => Some ("EACCES: permission denied, open '" +:+ p +:+ "'")).

(** A world whose [cache] input is [yes]. *)
Definition yes_cache_world : world := sample_world false (<["INPUT_CACHE" := "yes"]> ∅).


(** [JSON.parse] of output that is not JSON. *)
Definition bad_json (s : string) : string + list (string * string) :=
  inl "Unexpected token J in JSON at position 0".

(** A world whose [experimental] input is [True]. *)
Definition capital_true_world : world :=
  sample_world false (<["INPUT_EXPERIMENTAL" := "True"]> ∅).

Definition sample_hash (f : gmap string string) (patterns : string) : string := "h".

(** ** The monad and the trace *)

Lemma bind_apply {A B} (m : M A) (k : A -> M B) (w : world) :
  (m ≫= k) w = match m w with
               | (Normal a, w') => k a w'
               | (Throw e, w') => (Throw e, w')
               end.
Proof. reflexivity. Qed.

Global Instance Quiet_monoid : TraceMonoid Quiet.
Proof.
  split; [constructor |]. intros l1 l2 H1 H2. apply Forall_app; auto.
Qed.

Lemma saved_before_app_r pre pre' paths key :
  saved_before pre paths key -> saved_before (pre' ++ pre) paths key.
Proof.
  intros (Hc & Hk & Hd). unfold saved_before.
  destruct Hc as [c Hc]. destruct Hd as (d & -> & Hd).
  split; [|split]; [exists c | | exists d; split; [reflexivity|]];
    apply in_or_app; right; assumption.
Qed.

Global Instance restore_guarded_monoid : TraceMonoid restore_guarded.
Proof.
  split.
  - intros pre post paths key Heq. destruct pre; discriminate.
  - intros l1 l2 H1 H2 pre post paths key Heq.
    apply app_eq_inv in Heq as [[k [Hl1 Hpost]] | [k [Hpre Hl2]]].
    + destruct k as [|e k].
      * rewrite app_nil_r in Hl1. subst l1. simpl in Hpost. subst l2.
        rewrite <- (app_nil_r pre). apply saved_before_app_r.
        apply (H2 [] post paths key). reflexivity.
      * simpl in Hpost. injection Hpost as He _. subst e.
        apply (H1 pre k paths key). exact Hl1.
    + subst pre. apply saved_before_app_r. apply (H2 k post). exact Hl2.
Qed.

Lemma guarded_from_sound (l pre0 : list event) :
  guarded_from pre0 l ->
  forall pre post paths key,
    l = pre ++ EvRestoreCache paths key :: post -> saved_before (pre0 ++ pre) paths key.
Proof.
  revert pre0. induction l as [|e l IH]; intros pre0 Hg pre post paths key Heq.
  - destruct pre; discriminate.
  - destruct pre as [|e' pre]; simpl in Heq; injection Heq as He Hl; subst.
    + rewrite app_nil_r. exact (proj1 Hg).
    + rewrite (cons_middle e' pre0 pre), app_assoc.
      exact (IH _ (proj2 Hg) pre post paths key eq_refl).
Qed.

Lemma guarded_from_guarded (l : list event) :
  guarded_from [] l -> restore_guarded l.
Proof.
  intros Hg pre post paths key Heq.
  exact (guarded_from_sound l [] Hg pre post paths key Heq).
Qed.

Lemma Quiet_guarded (l : list event) : Quiet l -> restore_guarded l.
Proof.
  intros Hq pre post paths key ->. unfold Quiet in Hq.
  apply Forall_app in Hq as [_ Hq]. inversion Hq. discriminate.
Qed.

Lemma Quiet_outputs (l : list event) : Quiet l -> outputs "cache-hit" l = [].
Proof.
  induction 1 as [|e l He Hl IH]; [reflexivity|].
  unfold outputs in *. cbn [flat_map]. rewrite IH, app_nil_r.
  destruct e; try reflexivity. cbn [quiet] in He. cbv beta iota.
  destruct (String.eqb "cache-hit" k) eqn:E; [|reflexivity].
  apply String.eqb_eq in E. subst k. vm_compute in He. discriminate.
Qed.

Lemma outputs_app k (l1 l2 : list event) :
  outputs k (l1 ++ l2) = outputs k l1 ++ outputs k l2.
Proof. unfold outputs. apply flat_map_app. Qed.

Section Traces.

Context (Q : list event -> Prop) `{TraceMonoid Q}.

Lemma traces_bind {A B} (m : M A) (k : A -> M B) :
  traces Q m -> (forall a, traces Q (k a)) -> traces Q (m ≫= k).
Proof.
  intros Hm Hk w. rewrite bind_apply.
  destruct (Hm w) as (e1 & E1 & Q1).
  destruct (m w) as [[a|e] w1]; simpl in E1.
  - destruct (Hk a w1) as (e2 & E2 & Q2). exists (e1 ++ e2).
    rewrite E2, E1, app_assoc. split; [reflexivity | apply tm_app; assumption].
  - exists e1. split; assumption.
Qed.

Lemma traces_ret {A} (a : A) : traces Q (mret a).
Proof. intros w. exists []. rewrite app_nil_r. split; [reflexivity | apply tm_nil]. Qed.

Lemma traces_throw {A} (e : exn) : traces Q (throw (A:=A) e).
Proof. intros w. exists []. rewrite app_nil_r. split; [reflexivity | apply tm_nil]. Qed.

Lemma traces_get_world : traces Q get_world.
Proof. intros w. exists []. rewrite app_nil_r. split; [reflexivity | apply tm_nil]. Qed.

Lemma traces_emit (e : event) : Q [e] -> traces Q (emit e).
Proof. intros He w. exists [e]. split; [reflexivity | exact He]. Qed.

Lemma traces_modify (f : world -> world) :
  (forall w, trace (f w) = trace w) -> traces Q (modify f).
Proof.
  intros Hf w. exists []. rewrite app_nil_r. split; [apply Hf | apply tm_nil].
Qed.

Lemma traces_try_finally {A} (m : M A) (fin : M unit) :
  traces Q m -> traces Q fin -> traces Q (try_finally m fin).
Proof.
  intros Hm Hf w. unfold try_finally.
  destruct (Hm w) as (e1 & E1 & Q1). destruct (m w) as [r w1]. simpl in E1.
  destruct (Hf w1) as (e2 & E2 & Q2). destruct (fin w1) as [[u|e] w2];
    simpl in E2 |- *; exists (e1 ++ e2); rewrite E2, E1, app_assoc;
    (split; [reflexivity | apply tm_app; assumption]).
Qed.

Lemma traces_try_catch {A} (m : M A) (h : exn -> M A) :
  traces Q m -> (forall e, traces Q (h e)) -> traces Q (try_catch m h).
Proof.
  intros Hm Hh w. unfold try_catch.
  destruct (Hm w) as (e1 & E1 & Q1). destruct (m w) as [[a|e] w1]; simpl in E1.
  - exists e1. split; assumption.
  - destruct (Hh e w1) as (e2 & E2 & Q2). exists (e1 ++ e2).
    rewrite E2, E1, app_assoc. split; [reflexivity | apply tm_app; assumption].
Qed.

End Traces.

Lemma traces_weaken {A} (Q1 Q2 : list event -> Prop) (m : M A) :
  (forall l, Q1 l -> Q2 l) -> traces Q1 m -> traces Q2 m.
Proof.
  intros HQ Hm w. destruct (Hm w) as (e & E & Qe). exists e. split; auto.
Qed.

Create HintDb traces_db.

Ltac traces_step :=
  match goal with
  | |- traces _ (mbind _ _) =>
      apply traces_bind; try typeclasses eauto; [| intros ?; cbv beta]
  | |- traces _ (mret _) => apply traces_ret; try typeclasses eauto
  | |- traces _ (throw _) => apply traces_throw; try typeclasses eauto
  | |- traces _ get_world => apply traces_get_world; try typeclasses eauto
  | |- traces _ (emit _) => apply traces_emit; try typeclasses eauto
  | |- traces _ (modify _) =>
      apply traces_modify; try typeclasses eauto; intros; reflexivity
  | |- traces _ (try_finally _ _) => apply traces_try_finally; try typeclasses eauto
  | |- traces _ (try_catch _ _) =>
      apply traces_try_catch; try typeclasses eauto; [| intros ?]
  | |- traces _ (let _ := _ in _) => cbv zeta
  | |- traces _ (if ?b then _ else _) => destruct b
  | |- traces _ (match ?x with _ => _ end) => destruct x
  | |- traces _ _ => solve [eauto with traces_db]
  end.

Ltac traces_solve := repeat traces_step.

(** ** Which stages touch the cache *)

Section Proofs.

Variable hashFiles : gmap string string -> string -> string.
Variable JSON_parse : string -> string + list (string * string).

Ltac quiet_solve :=
  repeat (traces_step || match goal with |- Quiet _ => unfold Quiet; repeat constructor end).

Lemma quiet_getInput name : traces Quiet (getInput name).
Proof. unfold getInput. quiet_solve. Qed.
#[local] Hint Resolve quiet_getInput : traces_db.

Lemma quiet_getBooleanInput name : traces Quiet (getBooleanInput name).
Proof. unfold getBooleanInput. quiet_solve. Qed.
#[local] Hint Resolve quiet_getBooleanInput : traces_db.

Lemma quiet_info s : traces Quiet (info s).
Proof. unfold info. quiet_solve. Qed.
#[local] Hint Resolve quiet_info : traces_db.

Lemma quiet_startGroup s : traces Quiet (startGroup s).
Proof. unfold startGroup. quiet_solve. Qed.
#[local] Hint Resolve quiet_startGroup : traces_db.

Lemma quiet_group {A} s (fn : M A) : traces Quiet fn -> traces Quiet (group s fn).
Proof. intros Hfn. unfold group, endGroup. quiet_solve. Qed.
#[local] Hint Resolve quiet_group : traces_db.

Lemma quiet_setEnv k v : traces Quiet (setEnv k v).
Proof. unfold setEnv, exportVariable. quiet_solve. Qed.
#[local] Hint Resolve quiet_setEnv : traces_db.

Lemma quiet_addPath p : traces Quiet (addPath p).
Proof. unfold addPath. quiet_solve. Qed.
#[local] Hint Resolve quiet_addPath : traces_db.

Lemma quiet_setEnvVarsPreInstall : traces Quiet setEnvVarsPreInstall.
Proof. unfold setEnvVarsPreInstall, setEnvIfUnset, getExperimental. quiet_solve. Qed.
#[local] Hint Resolve quiet_setEnvVarsPreInstall : traces_db.

Lemma quiet_getExecOutput cmd args dir : traces Quiet (getExecOutput cmd args dir).
Proof. unfold getExecOutput. quiet_solve. Qed.
#[local] Hint Resolve quiet_getExecOutput : traces_db.

Lemma quiet_mise args : traces Quiet (mise args).
Proof. unfold mise, group, endGroup. quiet_solve. Qed.
#[local] Hint Resolve quiet_mise : traces_db.

Lemma quiet_addPathElements els : traces Quiet (addPathElements els).
Proof. induction els; simpl; quiet_solve. Qed.
#[local] Hint Resolve quiet_addPathElements : traces_db.

Lemma quiet_exportEntries entries : traces Quiet (exportEntries entries).
Proof. induction entries as [|[k v] rest IH]; simpl; quiet_solve. Qed.
#[local] Hint Resolve quiet_exportEntries : traces_db.

Lemma quiet_setEnvVars : traces Quiet (setEnvVars JSON_parse).
Proof. unfold setEnvVars, miseEnv. quiet_solve. Qed.
#[local] Hint Resolve quiet_setEnvVars : traces_db.

Lemma quiet_writeFile p body : traces Quiet (writeFile p body).
Proof. unfold writeFile, group, endGroup, fs_writeFile. quiet_solve. Qed.
#[local] Hint Resolve quiet_writeFile : traces_db.

Lemma quiet_setupMise version : traces Quiet (setupMise version).
Proof. unfold setupMise, miseDir, getOS, fs_mkdir, exec. quiet_solve. Qed.
#[local] Hint Resolve quiet_setupMise : traces_db.

Lemma quiet_config : traces Quiet (setToolVersions;; setMiseToml).
Proof. unfold setToolVersions, setMiseToml. quiet_solve. Qed.
#[local] Hint Resolve quiet_config : traces_db.

Lemma quiet_run_handler e : traces Quiet (run_handler e).
Proof. unfold run_handler, setFailed. quiet_solve. Qed.
#[local] Hint Resolve quiet_run_handler : traces_db.

End Proofs.

Lemma input_value_set_trace t w name : input_value (set_trace t w) name = input_value w name.
Proof. reflexivity. Qed.

Lemma boolean_input_getBooleanInput name w :
  getBooleanInput name w =
  match boolean_input w name with
  | Some b => (Normal b, w)
  | None => (Throw (ErrorV (getBooleanInput_error name)), w)
  end.
Proof.
  unfold getBooleanInput, boolean_input, getInput, get_world, throw,
    mbind, M_bind, mret, M_ret, true_values, false_values.
  destruct (bool_decide _); [reflexivity|]. destruct (bool_decide _); reflexivity.
Qed.

Lemma restoreMiseCache_eq hashFiles w :
  restoreMiseCache hashFiles w =
  match boolean_input w "cache_save" with
  | None =>
      (Throw (ErrorV (getBooleanInput_error "cache_save")),
       set_trace (trace w ++ [EvStartGroup "Restoring mise cache"]) w)
  | Some cs =>
      let key := primaryKey_of hashFiles w in
      let ext0 := restore_events cs (mise_data_dir w) key in
      match restore_result w [mise_data_dir w] key with
      | Throw e => (Throw e, set_trace (trace w ++ ext0) w)
      | Normal ck =>
          (Normal tt,
           set_trace (trace w ++ ext0 ++
                      EvSetOutput "cache-hit" (toCommandValue_bool (truthy ck))
                      :: restore_tail key ck) w)
      end
  end.
Proof.
  unfold restoreMiseCache, getBooleanInput, startGroup, miseDir, getOS, saveState,
    restoreCache, setOutput, info, getInput, emit, modify, get_world, throw,
    mbind, M_bind, mret, M_ret.
  cbn -[input_value String.eqb cache_key toCommandValue_bool truthy nullish_or].
  rewrite !input_value_set_trace.
  unfold boolean_input, true_values, false_values.
  destruct (bool_decide (input_value w "cache_save" ∈ _));
    [|destruct (bool_decide (input_value w "cache_save" ∈ _)); [|reflexivity]];
  cbn -[input_value String.eqb cache_key toCommandValue_bool truthy nullish_or];
  fold (cache_prefix w) (os_name w) (primaryKey_of hashFiles w);
  (destruct (restore_result w _ _) as [ck|e];
   [ unfold restore_tail; destruct ck as [k|]; [destruct (negb (truthy (Some k)))|];
     cbn -[input_value String.eqb cache_key toCommandValue_bool truthy nullish_or];
     rewrite <- !app_assoc; reflexivity
   | cbn; rewrite <- !app_assoc; reflexivity ]).
Qed.

Section RunTraces.

Variable hashFiles : gmap string string -> string -> string.
Variable JSON_parse : string -> string + list (string * string).

#[local] Hint Resolve quiet_getInput quiet_getBooleanInput quiet_setupMise
  quiet_setEnvVarsPreInstall quiet_mise quiet_setEnvVars quiet_run_handler
  quiet_writeFile : traces_db.

Lemma quiet_setToolVersions : traces Quiet setToolVersions.
Proof.
  unfold setToolVersions. repeat traces_step.
Qed.

Lemma quiet_setMiseToml : traces Quiet setMiseToml.
Proof.
  unfold setMiseToml. repeat traces_step.
Qed.

Ltac solve_in := simpl; repeat (first [left; reflexivity | right]).

Ltac solve_guarded :=
  apply guarded_from_guarded; simpl;
  repeat match goal with
  | |- True => exact I
  | |- _ /\ _ => split
  | |- saved_before _ _ _ =>
      split; [eexists; solve_in | split; [solve_in | eexists; split; [reflexivity | solve_in]]]
  end.

Lemma guarded_restoreMiseCache : traces restore_guarded (restoreMiseCache hashFiles).
Proof.
  intros w. rewrite restoreMiseCache_eq.
  destruct (boolean_input w "cache_save") as [cs|].
  - cbv zeta. destruct (restore_result w _ _) as [ck|e].
    + eexists. split; [reflexivity|].
      unfold restore_tail; destruct ck as [k|]; [destruct (negb (truthy (Some k)))|];
        solve_guarded.
    + eexists. split; [reflexivity|]. solve_guarded.
  - eexists. split; [reflexivity|]. solve_guarded.
Qed.

Lemma guarded_setOutput k v : traces restore_guarded (setOutput k v).
Proof.
  unfold setOutput. apply traces_emit; try typeclasses eauto.
  apply guarded_from_guarded. simpl. tauto.
Qed.

#[local] Hint Resolve quiet_setToolVersions quiet_setMiseToml : traces_db.
#[local] Hint Resolve guarded_restoreMiseCache guarded_setOutput : traces_db.
#[local] Hint Extern 2 (traces restore_guarded _) =>
  eapply traces_weaken; [exact Quiet_guarded | solve [eauto with traces_db]] : traces_db.

Lemma guarded_run : traces restore_guarded (run hashFiles JSON_parse).
Proof.
  unfold run, run_body, testMise, miseInstall. repeat traces_step.
Qed.

End RunTraces.

(** ** The cache gate *)

Lemma writeFile_env p body w : env (snd (writeFile p body w)) = env w.
Proof.
  unfold writeFile, group, try_finally, startGroup, endGroup, info, fs_writeFile,
    emit, modify, get_world, throw, mbind, M_bind, mret, M_ret.
  cbn. destruct (write_error w p); reflexivity.
Qed.

Lemma setToolVersions_env w : env (snd (setToolVersions w)) = env w.
Proof.
  unfold setToolVersions, getInput, get_world, mbind, M_bind, mret, M_ret.
  cbn -[writeFile truthy input_value].
  destruct (truthy (Some (input_value w "tool_versions"))); [apply writeFile_env | reflexivity].
Qed.

Lemma setMiseToml_env w : env (snd (setMiseToml w)) = env w.
Proof.
  unfold setMiseToml, getInput, get_world, mbind, M_bind, mret, M_ret.
  cbn -[writeFile truthy input_value].
  destruct (truthy (Some (input_value w "mise_toml"))); [apply writeFile_env | reflexivity].
Qed.

Lemma getBooleanInput_env name w1 w2 b :
  env w1 = env w2 -> getBooleanInput name w1 = (Normal b, w1) ->
  getBooleanInput name w2 = (Normal b, w2).
Proof.
  rewrite !boolean_input_getBooleanInput. unfold boolean_input, input_value.
  intros ->. destruct (bool_decide _); [|destruct (bool_decide _)]; congruence.
Qed.

Lemma setOutput_eq k v w :
  setOutput k v w = (Normal tt, set_trace (trace w ++ [EvSetOutput k v]) w).
Proof. reflexivity. Qed.

Section Gate.

Variable hashFiles : gmap string string -> string -> string.
Variable JSON_parse : string -> string + list (string * string).

#[local] Hint Resolve quiet_getInput quiet_getBooleanInput quiet_setupMise
  quiet_setEnvVarsPreInstall quiet_mise quiet_setEnvVars quiet_run_handler
  quiet_writeFile quiet_setToolVersions quiet_setMiseToml : traces_db.

Lemma Quiet_no_restore (l : list event) paths key :
  Quiet l -> ~ In (EvRestoreCache paths key) l.
Proof.
  intros Hq Hin. unfold Quiet in Hq. rewrite Forall_forall in Hq.
  apply list_elem_of_In in Hin. specialize (Hq _ Hin). discriminate.
Qed.

Lemma run_body_cache_disabled (w : world) :
  getBooleanInput "cache" w = (Normal false, w) ->
  exists ext, trace (snd (run_body hashFiles JSON_parse w)) = trace w ++ ext /\
    (forall paths key, ~ In (EvRestoreCache paths key) ext) /\
    (configs_written w -> outputs "cache-hit" ext = ["false"]) /\
    (~ configs_written w -> outputs "cache-hit" ext = []).
Proof.
  intros Hc. unfold run_body. rewrite bind_apply.
  destruct (quiet_setToolVersions w) as (e1 & E1 & Q1).
  pose proof (setToolVersions_env w) as Env1.
  destruct (setToolVersions w) as [[[]|err] w1] eqn:Ht; cbn [fst snd] in E1, Env1.
  - rewrite bind_apply.
    destruct (quiet_setMiseToml w1) as (e2 & E2 & Q2).
    pose proof (setMiseToml_env w1) as Env2.
    destruct (setMiseToml w1) as [[[]|err] w2] eqn:Hm; cbn [fst snd] in E2, Env2.
    + assert (Hcw : configs_written w).
      { unfold configs_written. rewrite bind_apply, Ht. cbn [fst snd]. rewrite Hm. reflexivity. }
      rewrite bind_apply.
      rewrite (getBooleanInput_env "cache" w w2 false ltac:(congruence) Hc).
      rewrite bind_apply, setOutput_eq. cbv iota.
      match goal with
      | |- context [?k (set_trace ?t w2)] =>
          assert (Hk : traces Quiet k)
            by (unfold testMise, miseInstall; repeat traces_step);
          destruct (Hk (set_trace t w2)) as (e3 & E3 & Q3);
          destruct (k (set_trace t w2)) as [r3 w3]
      end.
      cbn [snd trace set_trace] in E3 |- *.
      exists (e1 ++ e2 ++ [EvSetOutput "cache-hit" "false"] ++ e3).
      split; [rewrite E3, E2, E1, <- !app_assoc; reflexivity|].
      split; [|split; [|intros Hn; contradiction]].
      * intros paths key Hin. rewrite !in_app_iff in Hin.
        destruct Hin as [Hin|[Hin|[Hin|Hin]]];
          [exact (Quiet_no_restore _ _ _ Q1 Hin) | exact (Quiet_no_restore _ _ _ Q2 Hin)
          | destruct Hin as [Hin|[]]; discriminate | exact (Quiet_no_restore _ _ _ Q3 Hin)].
      * intros _. rewrite !outputs_app, (Quiet_outputs e1), (Quiet_outputs e2), (Quiet_outputs e3)
          by assumption. reflexivity.
    + cbn [snd]. exists (e1 ++ e2). split; [rewrite E2, E1, app_assoc; reflexivity|].
      split; [|split].
      * intros paths key Hin. rewrite in_app_iff in Hin.
        destruct Hin as [Hin|Hin];
          [exact (Quiet_no_restore _ _ _ Q1 Hin) | exact (Quiet_no_restore _ _ _ Q2 Hin)].
      * unfold configs_written. rewrite bind_apply, Ht. cbn [fst snd]. rewrite Hm. discriminate.
      * intros _. rewrite outputs_app, (Quiet_outputs e1), (Quiet_outputs e2) by assumption.
        reflexivity.
  - cbn [snd]. exists e1. split; [exact E1|]. split; [|split].
    + intros paths key. exact (Quiet_no_restore _ _ _ Q1).
    + unfold configs_written. rewrite bind_apply, Ht. discriminate.
    + intros _. exact (Quiet_outputs e1 Q1).
Qed.

End Gate.

(** ** Exporting the environment *)

Lemma string_app_assoc (a b c : string) : (a +:+ b) +:+ c = a +:+ (b +:+ c).
Proof. induction a as [|ch a IH]; [reflexivity | exact (f_equal (String ch) IH)]. Qed.

Lemma world_eta (w : world) : set_env (env w) (set_trace (trace w) w) = w.
Proof. destruct w; reflexivity. Qed.

Lemma info_eq s w : info s w = (Normal tt, set_trace (trace w ++ [EvInfo s]) w).
Proof. reflexivity. Qed.

Lemma startGroup_eq s w : startGroup s w = (Normal tt, set_trace (trace w ++ [EvStartGroup s]) w).
Proof. reflexivity. Qed.

Lemma addPath_eq p w :
  addPath p w = (Normal tt, set_env (add_path_env (path_delimiter w) (env w) p)
                              (set_trace (trace w ++ [EvAddPath p]) w)).
Proof. reflexivity. Qed.

Lemma setEnv_eq k v w :
  setEnv k v w = (Normal tt, set_env (<[k := v]> (env w))
    (set_trace (trace w ++ [EvInfo ("Setting " +:+ k +:+ "=" +:+ v); EvExportVariable k v]) w)).
Proof.
  unfold setEnv, exportVariable, info, emit, modify, mbind, M_bind. cbn.
  rewrite <- app_assoc. reflexivity.
Qed.

Lemma addPathElements_eq els : forall w,
  addPathElements els w =
  (Normal tt, set_env (foldl (add_path_env (path_delimiter w)) (env w) els)
                (set_trace (trace w ++ path_events els) w)).
Proof.
  induction els as [|p els IH]; intros w.
  - cbn. rewrite app_nil_r, world_eta. reflexivity.
  - cbn [addPathElements]. rewrite bind_apply, info_eq. cbv beta iota.
    rewrite bind_apply, addPath_eq. cbv beta iota. rewrite IH.
    cbn. rewrite <- !app_assoc. reflexivity.
Qed.

Lemma exportEntries_eq entries : forall w,
  exportEntries entries w =
  (Normal tt, set_env (foldl (export_env (path_delimiter w)) (env w) entries)
                (set_trace (trace w ++ flat_map (export_events (path_delimiter w)) entries) w)).
Proof.
  induction entries as [|[k v] rest IH]; intros w.
  - cbn. rewrite app_nil_r, world_eta. reflexivity.
  - cbn [exportEntries foldl flat_map]. rewrite bind_apply.
    assert (He : export_env (path_delimiter w) (env w) (k, v)
                 = if negb (String.eqb k "PATH") then <[k := v]> (env w)
                   else foldl (add_path_env (path_delimiter w)) (env w)
                          (split (path_delimiter w) v)) by reflexivity.
    assert (Hv : export_events (path_delimiter w) (k, v)
                 = if negb (String.eqb k "PATH")
                   then [EvInfo ("Setting " +:+ k +:+ "=" +:+ v); EvExportVariable k v]
                   else path_events (split (path_delimiter w) v)) by reflexivity.
    rewrite He, Hv. clear He Hv. destruct (negb (String.eqb k "PATH")).
    + rewrite setEnv_eq. cbv beta iota. rewrite IH. cbn. rewrite <- !app_assoc. reflexivity.
    + unfold get_world at 1, mbind at 1, M_bind at 1. cbv beta iota.
      rewrite addPathElements_eq. cbv beta iota. rewrite IH. cbn.
      rewrite <- !app_assoc. reflexivity.
Qed.

Lemma or_cwd_set_trace d t w : or_cwd d (set_trace t w) = or_cwd d w.
Proof. reflexivity. Qed.

Lemma mise_eq args w :
  let dir := or_cwd (input_value w "install_dir") w in
  let out := exec_result w (env w) "mise" args dir in
  mise args w =
  (if bool_decide (exitCode out = 0%Z) then Normal out
   else Throw (ErrorV ("The process '" +:+ which w "mise"
                       +:+ "' failed with exit code " +:+ pretty (exitCode out))),
   set_trace (trace w ++ mise_events args dir) w).
Proof.
  unfold mise, group, try_finally, startGroup, endGroup, getInput, getExecOutput,
    emit, modify, get_world, throw, mbind, M_bind, mret, M_ret.
  cbn -[input_value pretty or_cwd].
  rewrite !input_value_set_trace, !or_cwd_set_trace.
  destruct (bool_decide _); cbn -[input_value pretty or_cwd];
    rewrite <- !app_assoc; reflexivity.
Qed.

Lemma path_fold_other d els : forall e k,
  k <> "PATH" -> foldl (add_path_env d) e els !! k = e !! k.
Proof.
  induction els as [|p els IH]; intros e k Hk; [reflexivity|].
  cbn [foldl]. rewrite IH by exact Hk. unfold add_path_env.
  rewrite lookup_insert_ne by congruence. reflexivity.
Qed.

Lemma path_fold_PATH d els : forall e old,
  e !! "PATH" = Some old ->
  foldl (add_path_env d) e els !! "PATH"
  = Some (foldl (fun acc p => p +:+ String d EmptyString +:+ acc) old els).
Proof.
  induction els as [|p els IH]; intros e old Hold; [exact Hold|].
  cbn [foldl]. apply IH. unfold add_path_env. rewrite lookup_insert_eq, Hold. reflexivity.
Qed.

Lemma prepend_fold_suffix d els : forall old,
  exists pre, foldl (fun acc p => p +:+ String d EmptyString +:+ acc) old els = pre +:+ old.
Proof.
  induction els as [|p els IH]; intros old; [exists EmptyString; reflexivity|].
  cbn [foldl]. destruct (IH (p +:+ String d EmptyString +:+ old)) as [pre Hpre].
  exists (pre +:+ p +:+ String d EmptyString). rewrite Hpre, !string_app_assoc. reflexivity.
Qed.

Lemma export_fold_notin d entries : forall e k,
  ~ In k (map fst entries) -> foldl (export_env d) e entries !! k = e !! k.
Proof.
  induction entries as [|[k' v'] rest IH]; intros e k Hk; [reflexivity|].
  cbn [map fst In] in Hk. cbn [foldl]. rewrite IH by tauto.
  unfold export_env. cbn [fst snd].
  destruct (String.eqb k' "PATH") eqn:Hp; cbn [negb].
  - apply String.eqb_eq in Hp. subst k'. apply path_fold_other. intros ->. tauto.
  - rewrite lookup_insert_ne by (intros ->; tauto). reflexivity.
Qed.

Lemma export_fold_in d entries : forall e k v,
  NoDup (map fst entries) -> In (k, v) entries -> k <> "PATH" ->
  foldl (export_env d) e entries !! k = Some v.
Proof.
  induction entries as [|[k' v'] rest IH]; intros e k v Hnd Hin Hk; [contradiction|].
  cbn [map fst] in Hnd. apply NoDup_cons in Hnd as [Hnotin Hnd]. rewrite list_elem_of_In in Hnotin.
  cbn [foldl]. destruct Hin as [Heq|Hin].
  - injection Heq as <- <-. rewrite export_fold_notin by exact Hnotin.
    unfold export_env. cbn [fst snd].
    rewrite (proj2 (String.eqb_neq k' "PATH") Hk). cbn [negb].
    apply lookup_insert_eq.
  - exact (IH _ _ _ Hnd Hin Hk).
Qed.

Lemma export_fold_PATH d entries : forall e v old,
  NoDup (map fst entries) -> In ("PATH", v) entries -> e !! "PATH" = Some old ->
  foldl (export_env d) e entries !! "PATH"
  = Some (foldl (fun acc p => p +:+ String d EmptyString +:+ acc) old (split d v)).
Proof.
  induction entries as [|[k' v'] rest IH]; intros e v old Hnd Hin Hold; [contradiction|].
  cbn [map fst] in Hnd. apply NoDup_cons in Hnd as [Hnotin Hnd]. rewrite list_elem_of_In in Hnotin.
  cbn [foldl]. destruct Hin as [Heq|Hin].
  - injection Heq as Hk Hv. subst k' v'. rewrite export_fold_notin by exact Hnotin.
    unfold export_env. cbn [fst snd String.eqb negb]. apply path_fold_PATH. exact Hold.
  - apply IH; [exact Hnd | exact Hin |].
    assert (Hk : k' <> "PATH").
    { intros ->. apply Hnotin. apply (in_map fst rest ("PATH", v) Hin). }
    unfold export_env. cbn [fst snd].
    rewrite (proj2 (String.eqb_neq k' "PATH") Hk). cbn [negb].
    rewrite lookup_insert_ne by congruence. exact Hold.
Qed.

Lemma added_paths_app (l1 l2 : list event) :
  added_paths (l1 ++ l2) = added_paths l1 ++ added_paths l2.
Proof. unfold added_paths. apply flat_map_app. Qed.

Lemma added_paths_path_events els : added_paths (path_events els) = els.
Proof.
  induction els as [|p els IH]; [reflexivity|].
  unfold path_events in *. cbn [flat_map]. rewrite added_paths_app, IH. reflexivity.
Qed.

Lemma added_paths_export_events d entries :
  NoDup (map fst entries) ->
  added_paths (flat_map (export_events d) entries)
  = match List.find (fun kv => String.eqb kv.1 "PATH") entries with
    | Some kv => split d kv.2
    | None => []
    end.
Proof.
  induction entries as [|[k v] rest IH]; intros Hnd; [reflexivity|].
  cbn [map fst] in Hnd. apply NoDup_cons in Hnd as [Hnotin Hnd]. rewrite list_elem_of_In in Hnotin.
  cbn [flat_map List.find fst snd]. rewrite added_paths_app.
  unfold export_events at 1. cbn [fst snd].
  destruct (String.eqb k "PATH") eqn:Hp; cbn [negb].
  - rewrite added_paths_path_events. apply String.eqb_eq in Hp. subst k.
    rewrite IH by exact Hnd.
    destruct (List.find _ rest) as [[k' v']|] eqn:Hf; [|apply app_nil_r].
    apply List.find_some in Hf as [Hin Hk']. cbn [fst] in Hk'.
    apply String.eqb_eq in Hk'. subst k'.
    exfalso. apply Hnotin. apply (in_map fst rest ("PATH", v') Hin).
  - rewrite IH by exact Hnd. reflexivity.
Qed.

Lemma setEnvVars_success JSON_parse w obj :
  let dir := or_cwd (input_value w "install_dir") w in
  let out := exec_result w (env w) "mise" ["env"; "--json"] dir in
  let d := path_delimiter w in
  exitCode out = 0%Z -> JSON_parse (stdout out) = inr obj ->
  setEnvVars JSON_parse w =
  (Normal tt, set_env (foldl (export_env d) (env w) obj)
                (set_trace (trace w ++ mise_events ["env"; "--json"] dir
                              ++ EvStartGroup "Setting env vars"
                              :: flat_map (export_events d) obj) w)).
Proof.
  cbv zeta. intros H0 Hj.
  pose proof (mise_eq ["env"; "--json"] w) as Hm. cbv zeta in Hm.
  unfold setEnvVars, miseEnv. rewrite bind_apply, Hm.
  rewrite (bool_decide_eq_true_2 _ H0). cbv beta iota.
  rewrite bind_apply, startGroup_eq. cbv beta iota.
  rewrite (bool_decide_eq_true_2 _ H0), Hj, exportEntries_eq.
  cbn. rewrite <- !app_assoc. reflexivity.
Qed.

Lemma find_PATH (obj : list (string * string)) v :
  NoDup (map fst obj) -> In ("PATH", v) obj ->
  List.find (fun kv => String.eqb kv.1 "PATH") obj = Some ("PATH", v).
Proof.
  induction obj as [|[k v'] rest IH]; intros Hnd Hin; [contradiction|].
  cbn [map fst] in Hnd. apply NoDup_cons in Hnd as [Hnotin Hnd].
  rewrite list_elem_of_In in Hnotin.
  cbn [List.find fst]. destruct Hin as [Heq|Hin].
  - injection Heq as Hk Hv. subst k v'. reflexivity.
  - destruct (String.eqb k "PATH") eqn:Hk.
    + apply String.eqb_eq in Hk. subst k.
      exfalso. apply Hnotin. apply (in_map fst rest ("PATH", v) Hin).
    + exact (IH Hnd Hin).
Qed.

Lemma setEnvIfUnset_eq k v w :
  setEnvIfUnset k v w =
  (Normal tt, set_env (set_if_unset k v (env w))
                (set_trace (trace w ++ set_if_unset_events k v (env w)) w)).
Proof.
  unfold setEnvIfUnset, set_if_unset, set_if_unset_events. rewrite bind_apply.
  cbv beta iota delta [get_world].
  destruct (negb (truthy (env w !! k))).
  - apply setEnv_eq.
  - rewrite app_nil_r, world_eta. reflexivity.
Qed.

Lemma set_if_unset_other k v e k' : k <> k' -> set_if_unset k v e !! k' = e !! k'.
Proof.
  intros Hk. unfold set_if_unset. destruct (negb _); [|reflexivity].
  apply lookup_insert_ne. exact Hk.
Qed.

Lemma input_value_set_env e w name :
  input_value (set_env e w) name = trim (default EmptyString (e !! input_var name)).
Proof. reflexivity. Qed.

Lemma setEnvVarsPreInstall_eq w :
  exists t, setEnvVarsPreInstall w = (Normal tt, set_env (preinstall_env w) (set_trace t w)).
Proof.
  cbv beta iota delta [setEnvVarsPreInstall getExperimental getInput get_world
    mret M_ret mbind M_bind startGroup emit modify].
  repeat (rewrite setEnvIfUnset_eq; cbv beta iota).
  rewrite input_value_set_env.
  cbn [env set_env set_trace].
  rewrite !set_if_unset_other by (intros H; vm_compute in H; discriminate H).
  eexists. reflexivity.
Qed.

Lemma preinstall_env_other w k :
  ~ In k preinstall_vars -> preinstall_env w !! k = env w !! k.
Proof.
  intros Hk. unfold preinstall_env.
  cbn [preinstall_vars In] in Hk.
  rewrite !set_if_unset_other by (intros Heq; subst k; tauto). reflexivity.
Qed.

Lemma set_if_unset_same k v e e' :
  e !! k = e' !! k -> set_if_unset k v e !! k = set_if_unset k v e' !! k.
Proof.
  intros He. unfold set_if_unset. rewrite He.
  destruct (negb _); [rewrite !lookup_insert_eq; reflexivity | exact He].
Qed.

Lemma preinstall_env_var w k :
  In k preinstall_vars ->
  preinstall_env w !! k = set_if_unset k (preinstall_default w k) (env w) !! k.
Proof.
  intros Hk. unfold preinstall_env, preinstall_default.
  cbn [preinstall_vars In] in Hk.
  destruct Hk as [<-|[<-|[<-|[]]]]; cbn [String.eqb Ascii.eqb Bool.eqb andb].
  - rewrite !set_if_unset_other by discriminate. reflexivity.
  - rewrite set_if_unset_other by discriminate.
    apply set_if_unset_same. apply set_if_unset_other. discriminate.
  - apply set_if_unset_same. rewrite !set_if_unset_other by discriminate. reflexivity.
Qed.

Lemma set_if_unset_kept k v e v0 :
  e !! k = Some v0 -> v0 <> EmptyString -> set_if_unset k v e !! k = Some v0.
Proof.
  intros He Hv. unfold set_if_unset. rewrite He. cbn [truthy].
  rewrite (proj2 (String.eqb_neq v0 EmptyString) Hv). exact He.
Qed.

Lemma set_if_unset_set k v e :
  negb (truthy (e !! k)) = true -> set_if_unset k v e !! k = Some v.
Proof. intros He. unfold set_if_unset. rewrite He. apply lookup_insert_eq. Qed.

(** ** The configuration writer *)

Lemma writeFile_ok p body w :
  write_error w p = None ->
  writeFile p body w =
  (Normal tt, set_files (<[p := body]> (files w))
                (set_trace (trace w ++ [EvStartGroup ("Writing " +:+ p);
                                        EvInfo ("Body:" +:+ nl +:+ body);
                                        EvWriteFile p body; EvEndGroup]) w)).
Proof.
  intros Hw.
  unfold writeFile, group, try_finally, startGroup, endGroup, info, fs_writeFile,
    emit, modify, get_world, throw, mbind, M_bind, mret, M_ret.
  cbn -[nl]. rewrite Hw. cbn -[nl]. rewrite <- !app_assoc. reflexivity.
Qed.

Lemma setToolVersions_eq w :
  setToolVersions w =
  if truthy (Some (input_value w "tool_versions"))
  then writeFile ".tool-versions" (input_value w "tool_versions") w else (Normal tt, w).
Proof.
  unfold setToolVersions, getInput. cbv beta iota delta [mbind M_bind get_world mret M_ret].
  destruct (truthy _); reflexivity.
Qed.

Lemma setMiseToml_eq w :
  setMiseToml w =
  if truthy (Some (input_value w "mise_toml"))
  then writeFile ".mise.toml" (input_value w "mise_toml") w else (Normal tt, w).
Proof.
  unfold setMiseToml, getInput. cbv beta iota delta [mbind M_bind get_world mret M_ret].
  destruct (truthy _); reflexivity.
Qed.

Lemma config_writer_cases (w : world) (name file : string) (writer : M unit) :
  In (name, file, writer) [("tool_versions", ".tool-versions", setToolVersions);
                           ("mise_toml", ".mise.toml", setMiseToml)] ->
  writer w = if truthy (Some (input_value w name))
             then writeFile file (input_value w name) w else (Normal tt, w).
Proof.
  intros [H|[H|[]]]; injection H as <- <- <-;
    [apply setToolVersions_eq | apply setMiseToml_eq].
Qed.

(** * The claims *)

Section Claims.

Variable hashFiles : gmap string string -> string -> string.
Variable JSON_parse : string -> string + list (string * string).

(** C2: the key [restoreMiseCache] restores and saves as PRIMARY_KEY is
    [{prefix}-{os}-{arch}-{hash}]: the [cache_key_prefix] input (as
    [core.getInput] reads it) or [mise-v0] when that is empty, [macos] for
    the platform [darwin] and the platform itself otherwise, [os.arch()],
    and the hash of the files matched by the fixed patterns. *)
Theorem restoreMiseCache_primary_key (w : world) :
  let p := input_value w "cache_key_prefix" in
  let prefix := if String.eqb p "" then "mise-v0" else p in
  let os := if String.eqb (platform w) "darwin" then "macos" else platform w in
  let key := prefix +:+ "-" +:+ os +:+ "-" +:+ arch w +:+ "-"
             +:+ hashFiles (files w)
                   (String.concat nl ["**/.config/mise/config.toml"; "**/.mise.*.toml";
                                      "**/.mise.toml"; "**/.mise/config.toml";
                                      "**/.tool-versions"]) in
  exists ext, trace (snd (restoreMiseCache hashFiles w)) = trace w ++ ext /\
    (forall paths k, In (EvRestoreCache paths k) ext -> k = key) /\
    (forall k, In (EvSaveState "PRIMARY_KEY" k) ext -> k = key).
Proof.
  cbv zeta. rewrite restoreMiseCache_eq.
  destruct (boolean_input w "cache_save") as [cs|].
  - cbv zeta. destruct (restore_result w _ _) as [ck|e]; eexists; (split; [reflexivity|]);
      [unfold restore_tail; destruct ck as [k'|]; [destruct (negb (truthy (Some k')))|] |];
      split; intros * Hin; simpl in Hin;
      repeat (destruct Hin as [Hin|Hin]; [try discriminate Hin; injection Hin; intros; subst; reflexivity|]);
      contradiction.
  - eexists. split; [reflexivity|]. simpl.
    split; intros * Hin; destruct Hin as [Hin|[]]; discriminate.
Qed.

(** C6: whenever the cache stage returns (a hit or a miss), it has saved
    CACHE (the [cache_save] input), PRIMARY_KEY and MISE_DIR exactly once,
    set [cache-hit] to whether the restore found a key, and saved
    CACHE_KEY (the key found) exactly when it did. *)
Theorem restoreMiseCache_saves_state (w w' : world) :
  restoreMiseCache hashFiles w = (Normal tt, w') ->
  exists ext cs ck, trace w' = trace w ++ ext /\
    boolean_input w "cache_save" = Some cs /\
    restore_result w [mise_data_dir w] (primaryKey_of hashFiles w) = Normal ck /\
    saved_states "CACHE" ext = [toCommandValue_bool cs] /\
    saved_states "PRIMARY_KEY" ext = [primaryKey_of hashFiles w] /\
    saved_states "MISE_DIR" ext = [mise_data_dir w] /\
    outputs "cache-hit" ext = [toCommandValue_bool (truthy ck)] /\
    (truthy ck = true -> exists k, ck = Some k /\ saved_states "CACHE_KEY" ext = [k]) /\
    (truthy ck = false -> saved_states "CACHE_KEY" ext = []).
Proof.
  rewrite restoreMiseCache_eq. intros H.
  destruct (boolean_input w "cache_save") as [cs|]; [|discriminate].
  cbv zeta in H. destruct (restore_result w _ _) as [ck|e] eqn:Hr; [|discriminate].
  injection H as <-. eexists _, cs, ck.
  split; [reflexivity|]. split; [reflexivity|]. split; [reflexivity|].
  unfold restore_tail. destruct ck as [k|]; [destruct (truthy (Some k)) eqn:Ht|];
    cbn; repeat split; try discriminate; eauto.
Qed.

(** C8: the handler of [run] turns an [Error] thrown by the pipeline into
    the failure message and stops there; any other thrown value leaves
    [run] unchanged; a pipeline that completes is left as it is.  A stage
    that throws ends the pipeline with its error. *)
Theorem run_error_handling (w : world) :
  (forall message w', run_body hashFiles JSON_parse w = (Throw (ErrorV message), w') ->
     run hashFiles JSON_parse w = (Normal tt, set_trace (trace w' ++ [EvSetFailed message]) w')) /\
  (forall v w', run_body hashFiles JSON_parse w = (Throw (OtherV v), w') ->
     run hashFiles JSON_parse w = (Throw (OtherV v), w')) /\
  (forall w', run_body hashFiles JSON_parse w = (Normal tt, w') ->
     run hashFiles JSON_parse w = (Normal tt, w')) /\
  (forall A B (m : M A) (k : A -> M B) e w1 w2,
     m w1 = (Throw e, w2) -> (m ≫= k) w1 = (Throw e, w2)).
Proof.
  unfold run, try_catch.
  split; [|split; [|split]]; intros *; [intros H; rewrite H; reflexivity ..|].
  intros H. rewrite bind_apply, H. reflexivity.
Qed.

(** C9: in every run each cache restore comes after the states CACHE,
    PRIMARY_KEY (the key being restored) and MISE_DIR (the directory being
    restored) were saved; since the trace only grows, they remain saved
    when the restore throws and the run aborts. *)
Theorem run_saves_state_before_restore (w : world) :
  exists ext, trace (snd (run hashFiles JSON_parse w)) = trace w ++ ext /\
  forall pre post paths key, ext = pre ++ EvRestoreCache paths key :: post ->
    (exists c, In (EvSaveState "CACHE" c) pre) /\
    In (EvSaveState "PRIMARY_KEY" key) pre /\
    (exists d, paths = [d] /\ In (EvSaveState "MISE_DIR" d) pre).
Proof. exact (guarded_run hashFiles JSON_parse w). Qed.

(** C4: when the [cache] input is false, a run never restores a cache; the
    only value it gives the [cache-hit] output is [false], given exactly
    once when the configuration writer completed (before that, a failing
    write ends the run before the cache gate is reached). *)
Theorem run_cache_disabled (w : world) :
  getBooleanInput "cache" w = (Normal false, w) ->
  exists ext, trace (snd (run hashFiles JSON_parse w)) = trace w ++ ext /\
    (forall paths key, ~ In (EvRestoreCache paths key) ext) /\
    (configs_written w -> outputs "cache-hit" ext = ["false"]) /\
    (~ configs_written w -> outputs "cache-hit" ext = []).
Proof.
  intros Hc. destruct (run_body_cache_disabled hashFiles JSON_parse w Hc)
    as (ext & E & Hr & Ho1 & Ho2).
  unfold run, try_catch.
  destruct (run_body hashFiles JSON_parse w) as [[[]|err] w1]; cbn [snd] in E |- *.
  - exists ext. auto.
  - destruct (quiet_run_handler err w1) as (e4 & E4 & Q4).
    destruct (run_handler err w1) as [r4 w4]. cbn [snd] in E4 |- *.
    exists (ext ++ e4). rewrite E4, E, app_assoc. split; [reflexivity|].
    split; [|split].
    + intros paths key Hin. apply in_app_iff in Hin as [Hin|Hin];
        [exact (Hr _ _ Hin) | exact (Quiet_no_restore _ _ _ Q4 Hin)].
    + intros Hw. rewrite outputs_app, (Quiet_outputs e4 Q4), app_nil_r. auto.
    + intros Hw. rewrite outputs_app, (Quiet_outputs e4 Q4), app_nil_r. auto.
Qed.

(** C1: when [mise env --json] succeeds and its output parses to the
    entries [obj] (the distinct keys of a JSON object), [setEnvVars]
    exports every key other than PATH with its value, leaves every variable
    absent from [obj] as it was, and for PATH adds each segment of the
    value split on the delimiter with [core.addPath], one call per segment.
    [core.addPath] PREPENDS: the final PATH is the segments in reverse order
    in front of the PATH in place before, which is kept as a suffix. *)
Theorem setEnvVars_exports (w : world) (old : string) (obj : list (string * string)) :
  let dir := or_cwd (input_value w "install_dir") w in
  let out := exec_result w (env w) "mise" ["env"; "--json"] dir in
  let d := path_delimiter w in
  exitCode out = 0%Z -> JSON_parse (stdout out) = inr obj ->
  NoDup (map fst obj) -> env w !! "PATH" = Some old ->
  exists w' ext, setEnvVars JSON_parse w = (Normal tt, w') /\ trace w' = trace w ++ ext /\
    (forall k v, In (k, v) obj -> k <> "PATH" -> env w' !! k = Some v) /\
    (forall k, ~ In k (map fst obj) -> env w' !! k = env w !! k) /\
    (forall v, In ("PATH", v) obj ->
       env w' !! "PATH"
       = Some (foldl (fun acc p => p +:+ String d EmptyString +:+ acc) old (split d v)) /\
       (exists pre, env w' !! "PATH" = Some (pre +:+ old)) /\
       added_paths ext = split d v).
Proof.
  cbv zeta. intros H0 Hj Hnd Hold.
  rewrite (setEnvVars_success JSON_parse w obj H0 Hj).
  eexists _, _. split; [reflexivity|]. split; [reflexivity|].
  cbn [env set_env]. split; [|split].
  - intros k v Hin Hk. exact (export_fold_in _ obj _ k v Hnd Hin Hk).
  - intros k Hk. exact (export_fold_notin _ obj _ k Hk).
  - intros v Hin. rewrite (export_fold_PATH _ obj _ v old Hnd Hin Hold).
    split; [reflexivity|]. split.
    + destruct (prepend_fold_suffix (path_delimiter w) (split (path_delimiter w) v) old)
        as [pre Hpre]. exists pre. rewrite Hpre. reflexivity.
    + rewrite added_paths_app. cbn [added_paths flat_map mise_events app].
      fold (added_paths (flat_map (export_events (path_delimiter w)) obj)).
      rewrite (added_paths_export_events _ obj Hnd), (find_PATH obj v Hnd Hin).
      reflexivity.
Qed.

(** C3: when [mise env --json] exits with a non-zero code, it is
    [exec.getExecOutput] (called without [ignoreReturnCode]) that rejects,
    with the message [The process '<mise>' failed with exit code <n>], which
    does not carry the standard error; [setEnvVars] throws that error before
    its exit-code test, so its own [Failed to run mise env: <stderr>] is
    never thrown.  The environment is left as it was. *)
Theorem setEnvVars_nonzero_exit (w : world) :
  let dir := or_cwd (input_value w "install_dir") w in
  let out := exec_result w (env w) "mise" ["env"; "--json"] dir in
  exitCode out <> 0%Z ->
  setEnvVars JSON_parse w =
  (Throw (ErrorV ("The process '" +:+ which w "mise" +:+ "' failed with exit code "
                  +:+ pretty (exitCode out))),
   set_trace (trace w ++ mise_events ["env"; "--json"] dir) w).
Proof.
  cbv zeta. intros H.
  pose proof (mise_eq ["env"; "--json"] w) as Hm. cbv zeta in Hm.
  unfold setEnvVars, miseEnv. rewrite bind_apply, Hm.
  rewrite (bool_decide_eq_false_2 _ H). reflexivity.
Qed.

(** C3, a whole run: in [failing_world], where [mise env --json] exits with
    1 and the standard error [boom], the run ends with the failure message
    [The process '/usr/bin/mise' failed with exit code 1], which does not
    include [boom]. *)
Theorem run_env_dump_failure_message :
  exists w' msg,
    run sample_hash sample_json failing_world = (Normal tt, w') /\
    last (trace w') = Some (EvSetFailed msg) /\
    msg = "The process '/usr/bin/mise' failed with exit code 1" /\
    stderr (exec_result failing_world (env failing_world) "mise" ["env"; "--json"] "/w")
      = "boom" /\
    includes msg "boom" = false.
Proof.
  eexists _, _. split; [vm_compute; reflexivity|].
  split; [vm_compute; reflexivity|]. vm_compute. auto.
Qed.

(** C5: [setEnvVarsPreInstall] changes no variable other than
    MISE_TRUSTED_CONFIG_PATHS, MISE_YES and MISE_EXPERIMENTAL; each of
    these keeps a value that is present and non-empty, and gets the stage's
    default when absent (the test is [!process.env[k]], so an empty value
    counts as unset, see C10). *)
Theorem setEnvVarsPreInstall_keeps_set (w : world) :
  exists w', setEnvVarsPreInstall w = (Normal tt, w') /\
    (forall k, ~ In k preinstall_vars -> env w' !! k = env w !! k) /\
    (forall k v, In k preinstall_vars -> env w !! k = Some v -> v <> EmptyString ->
       env w' !! k = Some v) /\
    (forall k, In k preinstall_vars -> env w !! k = None ->
       env w' !! k = Some (preinstall_default w k)).
Proof.
  destruct (setEnvVarsPreInstall_eq w) as [t E].
  eexists. split; [exact E|]. cbn [env set_env]. split; [|split].
  - apply preinstall_env_other.
  - intros k v Hk He Hv. rewrite (preinstall_env_var w k Hk).
    exact (set_if_unset_kept _ _ _ _ He Hv).
  - intros k Hk He. rewrite (preinstall_env_var w k Hk).
    apply set_if_unset_set. rewrite He. reflexivity.
Qed.

(** C10: a pre-install variable present with the empty value is set to the
    stage's default (the working directory, [1], or [1]/[0] from the
    [experimental] input); one present with a non-empty value keeps it. *)
Theorem setEnvVarsPreInstall_empty_is_unset (w : world) (k : string) :
  In k preinstall_vars ->
  exists w', setEnvVarsPreInstall w = (Normal tt, w') /\
    (env w !! k = Some EmptyString -> env w' !! k = Some (preinstall_default w k)) /\
    (forall v, env w !! k = Some v -> v <> EmptyString -> env w' !! k = Some v).
Proof.
  intros Hk. destruct (setEnvVarsPreInstall_eq w) as [t E].
  eexists. split; [exact E|]. cbn [env set_env].
  rewrite (preinstall_env_var w k Hk). split.
  - intros He. apply set_if_unset_set. rewrite He. reflexivity.
  - intros v He Hv. exact (set_if_unset_kept _ _ _ _ He Hv).
Qed.

(** C7: each configuration writer reads its input with [core.getInput],
    which trims leading and trailing whitespace.  When the trimmed input is
    empty it does nothing at all; otherwise (and when the file system
    accepts the write) it stores exactly the trimmed input at its path, in
    place of any previous content, and issues the UTF-8 [writeFile]. *)
Theorem config_writer_trimmed (w : world) (name file : string) (writer : M unit) :
  In (name, file, writer) [("tool_versions", ".tool-versions", setToolVersions);
                           ("mise_toml", ".mise.toml", setMiseToml)] ->
  let body := trim (default EmptyString (env w !! input_var name)) in
  (body = EmptyString -> writer w = (Normal tt, w)) /\
  (body <> EmptyString -> write_error w file = None ->
     exists t, writer w = (Normal tt, set_files (<[file := body]> (files w)) (set_trace t w)) /\
       In (EvWriteFile file body) t).
Proof.
  intros Hin. cbv zeta. rewrite (config_writer_cases w name file writer Hin).
  fold (input_value w name). cbn [truthy]. split.
  - intros ->. reflexivity.
  - intros Hb Hw. rewrite (proj2 (String.eqb_neq _ _) Hb). cbn [negb].
    rewrite (writeFile_ok _ _ _ Hw). eexists. split; [reflexivity|].
    apply in_app_iff. right. right. right. left. reflexivity.
Qed.

End Claims.

(** ** Witnesses and counterexamples *)

Lemma setEnvVars_exports_witness :
  exists w', setEnvVars sample_json path_world = (Normal tt, w') /\
    env w' !! "FOO" = Some "bar" /\ env w' !! "PATH" = Some "/b:/a:/usr/bin".
Proof.
  destruct (setEnvVars_exports sample_json path_world "/usr/bin"
              [("FOO", "bar"); ("PATH", "/a:/b")])
    as (w' & ext & E & _ & Hk & _ & Hp);
    [reflexivity | reflexivity | apply (bool_decide_unpack _); vm_compute; exact I
    | reflexivity | ].
  exists w'. split; [exact E|]. split.
  - apply Hk; [left; reflexivity | discriminate].
  - destruct (Hp "/a:/b") as [Hv _]; [right; left; reflexivity|].
    rewrite Hv. vm_compute. reflexivity.
Defined.

(** C1 says the segments are appended to PATH; with PATH [/usr/bin] and the
    dump [{"FOO":"bar","PATH":"/a:/b"}] the PATH exported is
    [/b:/a:/usr/bin]: the segments come first, and the earlier PATH is no
    longer at its front. *)
Lemma setEnvVars_appends_counterexample :
  exists w', setEnvVars sample_json path_world = (Normal tt, w') /\
    env w' !! "PATH" = Some "/b:/a:/usr/bin" /\
    ~ (exists suffix, env w' !! "PATH" = Some ("/usr/bin" +:+ suffix)).
Proof.
  exists (snd (setEnvVars sample_json path_world)).
  split; [vm_compute; reflexivity|]. split; [vm_compute; reflexivity|].
  intros [suffix H]. vm_compute in H. inversion H.
Qed.


Lemma setEnvVars_nonzero_exit_witness :
  setEnvVars sample_json failing_world =
  (Throw (ErrorV "The process '/usr/bin/mise' failed with exit code 1"),
   set_trace (trace failing_world ++ mise_events ["env"; "--json"] "/w") failing_world).
Proof.
  exact (setEnvVars_nonzero_exit sample_json failing_world ltac:(vm_compute; discriminate)).
Defined.

Lemma setEnvVarsPreInstall_empty_is_unset_witness :
  exists w', setEnvVarsPreInstall empty_yes_world = (Normal tt, w') /\
    env w' !! "MISE_YES" = Some "1".
Proof.
  destruct (setEnvVarsPreInstall_empty_is_unset empty_yes_world "MISE_YES")
    as (w' & E & He & _); [right; left; reflexivity|].
  exists w'. split; [exact E|]. exact (He eq_refl).
Defined.

(** C5 says a variable already present is never overwritten; MISE_YES
    present with the empty value is overwritten with [1]. *)
Lemma setEnvVarsPreInstall_overwrites_empty_counterexample :
  exists w', setEnvVarsPreInstall empty_yes_world = (Normal tt, w') /\
    env empty_yes_world !! "MISE_YES" = Some "" /\
    env w' !! "MISE_YES" = Some "1".
Proof.
  exists (snd (setEnvVarsPreInstall empty_yes_world)).
  split; [vm_compute; reflexivity|]. split; vm_compute; reflexivity.
Qed.

Lemma config_writer_trimmed_witness :
  exists t, setToolVersions tool_world
    = (Normal tt, set_files (<[".tool-versions" := "node 20"]> (files tool_world))
                    (set_trace t tool_world)).
Proof.
  destruct (config_writer_trimmed tool_world "tool_versions" ".tool-versions" setToolVersions)
    as [_ Hw]; [left; reflexivity|].
  destruct Hw as (t & E & _); [vm_compute; discriminate | reflexivity |].
  exists t. exact E.
Defined.

(** C7 says the body is written verbatim; the input [node 20] followed by a
    newline is written as [node 20]. *)
Lemma config_writer_verbatim_counterexample :
  env tool_world !! "INPUT_TOOL_VERSIONS" = Some ("node 20" +:+ nl) /\
  files (snd (setToolVersions tool_world)) !! ".tool-versions" = Some "node 20".
Proof. split; vm_compute; reflexivity. Qed.

Lemma restoreMiseCache_saves_state_witness :
  exists ext, trace (snd (restoreMiseCache sample_hash cache_world)) = trace cache_world ++ ext /\
    saved_states "PRIMARY_KEY" ext = [primaryKey_of sample_hash cache_world] /\
    saved_states "CACHE" ext = ["true"].
Proof.
  destruct (restoreMiseCache_saves_state sample_hash cache_world
              (snd (restoreMiseCache sample_hash cache_world)) ltac:(vm_compute; reflexivity))
    as (ext & cs & ck & E & Hcs & _ & Hc & Hp & _).
  exists ext. split; [exact E|]. split; [exact Hp|].
  rewrite Hc. vm_compute in Hcs. injection Hcs as <-. reflexivity.
Defined.

Lemma run_cache_disabled_witness :
  exists ext, trace (snd (run sample_hash sample_json failing_world)) = trace failing_world ++ ext /\
    forall paths key, ~ In (EvRestoreCache paths key) ext.
Proof.
  destruct (run_cache_disabled sample_hash sample_json failing_world ltac:(vm_compute; reflexivity))
    as (ext & E & Hr & _).
  exists ext. split; [exact E | exact Hr].
Defined.

(** * Further properties of the pipeline *)

(** ** Installing the binary *)

(** [setupMise] with a working file system, [curl] and [chmod]: it creates
    [<miseDir>/bin], downloads the release for the platform ([macos] for
    [darwin]) and architecture (the latest one when no version is given)
    to [<miseDir>/bin/mise], makes it executable and prepends
    [<miseDir>/bin] to PATH; nothing else of the environment changes. *)
Theorem setupMise_installs (version : string) (w : world) :
  let bin := path_join (mise_data_dir w) "bin" in
  let os := if String.eqb (platform w) "darwin" then "macos" else platform w in
  let url :=
    if String.eqb version EmptyString
    then "https://mise.jdx.dev/mise-latest-" +:+ os +:+ "-" +:+ arch w
    else "https://mise.jdx.dev/v" +:+ version +:+ "/mise-v" +:+ version
           +:+ "-" +:+ os +:+ "-" +:+ arch w in
  let curl_args := ["-fsSL"; url; "--output"; path_join bin "mise"] in
  let chmod_args := ["+x"; path_join bin "mise"] in
  write_error w bin = None ->
  exitCode (exec_result w (env w) "curl" curl_args (cwd w)) = 0%Z ->
  exitCode (exec_result w (env w) "chmod" chmod_args (cwd w)) = 0%Z ->
  setupMise version w =
  (Normal tt,
   set_env (<["PATH" := bin +:+ String (path_delimiter w) EmptyString
                        +:+ default "undefined" (env w !! "PATH")]> (env w))
     (set_trace (trace w ++
        [EvStartGroup (if String.eqb version EmptyString then "Setup mise"
                       else "Setup mise@" +:+ version);
         EvMkdir bin; EvExec "curl" curl_args (cwd w);
         EvExec "chmod" chmod_args (cwd w); EvAddPath bin]) w)).
Proof.
  cbv zeta. intros Hm Hc Hx.
  unfold setupMise, startGroup, miseDir, getOS, fs_mkdir, exec, getExecOutput, addPath,
    emit, modify, get_world, throw, mbind, M_bind, mret, M_ret.
  cbn -[String.eqb path_join pretty].
  rewrite Hm. cbn -[String.eqb path_join pretty].
  rewrite (bool_decide_eq_true_2 _ Hc). cbn -[String.eqb path_join pretty].
  rewrite (bool_decide_eq_true_2 _ Hx). cbn -[String.eqb path_join pretty].
  rewrite <- !app_assoc. reflexivity.
Qed.

Lemma setupMise_installs_witness :
  env (snd (setupMise EmptyString path_world)) !! "PATH" = Some "/d/bin:/usr/bin".
Proof.
  rewrite (setupMise_installs EmptyString path_world eq_refl eq_refl eq_refl).
  vm_compute. reflexivity.
Defined.

(** When the download fails, [setupMise] rejects with the runner's message
    for [curl]: [chmod] is never run and PATH is not touched, the
    environment is as it was. *)
Theorem setupMise_download_failure (version : string) (w : world) :
  let bin := path_join (mise_data_dir w) "bin" in
  let os := if String.eqb (platform w) "darwin" then "macos" else platform w in
  let url :=
    if String.eqb version EmptyString
    then "https://mise.jdx.dev/mise-latest-" +:+ os +:+ "-" +:+ arch w
    else "https://mise.jdx.dev/v" +:+ version +:+ "/mise-v" +:+ version
           +:+ "-" +:+ os +:+ "-" +:+ arch w in
  let curl_args := ["-fsSL"; url; "--output"; path_join bin "mise"] in
  let code := exitCode (exec_result w (env w) "curl" curl_args (cwd w)) in
  write_error w bin = None -> code <> 0%Z ->
  setupMise version w =
  (Throw (ErrorV ("The process '" +:+ which w "curl" +:+ "' failed with exit code "
                  +:+ pretty code)),
   set_trace (trace w ++
     [EvStartGroup (if String.eqb version EmptyString then "Setup mise"
                    else "Setup mise@" +:+ version);
      EvMkdir bin; EvExec "curl" curl_args (cwd w)]) w).
Proof.
  cbv zeta. intros Hm Hc.
  unfold setupMise, startGroup, miseDir, getOS, fs_mkdir, exec, getExecOutput, addPath,
    emit, modify, get_world, throw, mbind, M_bind, mret, M_ret.
  cbn -[String.eqb path_join pretty].
  rewrite Hm. cbn -[String.eqb path_join pretty].
  rewrite (bool_decide_eq_false_2 _ Hc). cbn -[String.eqb path_join pretty].
  rewrite <- !app_assoc. reflexivity.
Qed.

Lemma setupMise_download_failure_witness :
  fst (setupMise EmptyString
         curl_failing_world)
  = Throw (ErrorV "The process '/usr/bin/curl' failed with exit code 22").
Proof.
  rewrite (setupMise_download_failure EmptyString curl_failing_world eq_refl
             ltac:(vm_compute; discriminate)).
  vm_compute. reflexivity.
Defined.

(** When [<miseDir>/bin] cannot be created, [setupMise] rejects with the
    file-system error before any download: no subprocess is run and the
    environment is unchanged. *)
Theorem setupMise_mkdir_failure (version : string) (w : world) (m : string) :
  write_error w (path_join (mise_data_dir w) "bin") = Some m ->
  setupMise version w =
  (Throw (ErrorV m),
   set_trace (trace w ++
     [EvStartGroup (if String.eqb version EmptyString then "Setup mise"
                    else "Setup mise@" +:+ version)]) w).
Proof.
  intros Hm.
  unfold setupMise, startGroup, miseDir, getOS, fs_mkdir, emit, modify, get_world, throw,
    mbind, M_bind, mret, M_ret.
  cbn -[String.eqb path_join]. rewrite Hm. reflexivity.
Qed.

Lemma setupMise_mkdir_failure_witness :
  fst (setupMise "2024.1.0" (readonly_world ∅))
  = Throw (ErrorV "EACCES: permission denied, open '/d/bin'").
Proof. rewrite (setupMise_mkdir_failure "2024.1.0" (readonly_world ∅) _ eq_refl). reflexivity. Defined.

(** ** Running mise *)

(** [mise args] runs [mise args] in the [install_dir] input, or in the
    working directory when that input is empty, inside a log group that is
    closed whether the subprocess succeeds or not; a non-zero exit code
    rejects with the runner's message.  The environment is unchanged. *)
Theorem mise_runs_in_install_dir (args : list string) (w : world) :
  let d := input_value w "install_dir" in
  let dir := if String.eqb d EmptyString then cwd w else d in
  let out := exec_result w (env w) "mise" args dir in
  mise args w =
  (if bool_decide (exitCode out = 0%Z) then Normal out
   else Throw (ErrorV ("The process '" +:+ which w "mise"
                       +:+ "' failed with exit code " +:+ pretty (exitCode out))),
   set_trace (trace w ++ [EvStartGroup ("Running mise " +:+ String.concat " " args);
                          EvExec "mise" args dir; EvEndGroup]) w).
Proof. exact (mise_eq args w). Qed.

(** ** Writing the configuration *)




(** ** Failures that end the run early *)



Lemma configs_env (w w1 : world) :
  (setToolVersions;; setMiseToml) w = (Normal tt, w1) -> env w1 = env w.
Proof.
  intros H. pose proof (setToolVersions_env w) as E1.
  rewrite bind_apply in H. destruct (setToolVersions w) as [[[]|e] w0]; [|discriminate].
  cbn [snd] in E1. pose proof (setMiseToml_env w0) as E2. rewrite H in E2.
  cbn [snd] in E2. congruence.
Qed.

Lemma boolean_input_env (w1 w2 : world) name :
  env w1 = env w2 -> boolean_input w1 name = boolean_input w2 name.
Proof. intros E. unfold boolean_input, input_value. rewrite E. reflexivity. Qed.

(** When the configuration files are written but the [cache] input is not
    one of the six YAML 1.2 booleans, the run fails with the toolkit's
    [TypeError] message for [cache] and does nothing more: no restore, no
    [cache-hit] output, no download. *)
Theorem run_invalid_cache_input hashFiles JSON_parse (w w1 : world) :
  (setToolVersions;; setMiseToml) w = (Normal tt, w1) ->
  boolean_input w "cache" = None ->
  run hashFiles JSON_parse w =
  (Normal tt, set_trace (trace w1 ++ [EvSetFailed (getBooleanInput_error "cache")]) w1).
Proof.
  intros Hc Hb. pose proof (configs_env w w1 Hc) as Ew.
  unfold run, try_catch, run_body.
  rewrite bind_apply in Hc |- *. destruct (setToolVersions w) as [[[]|e] w0]; [|discriminate].
  rewrite bind_apply, Hc, bind_apply, boolean_input_getBooleanInput.
  rewrite (boolean_input_env w1 w "cache" Ew), Hb. reflexivity.
Qed.

Lemma run_invalid_cache_input_witness :
  snd (run sample_hash sample_json yes_cache_world)
  = set_trace [EvSetFailed (getBooleanInput_error "cache")] yes_cache_world.
Proof.
  rewrite (run_invalid_cache_input sample_hash sample_json yes_cache_world yes_cache_world
             ltac:(vm_compute; reflexivity) ltac:(vm_compute; reflexivity)).
  reflexivity.
Defined.

(** ** Restoring the cache *)





(** [restoreMiseCache] never changes the process environment, whether
    it returns or throws. *)
Theorem restoreMiseCache_env hashFiles (w : world) :
  env (snd (restoreMiseCache hashFiles w)) = env w.
Proof.
  rewrite restoreMiseCache_eq.
  destruct (boolean_input w "cache_save"); [|reflexivity].
  cbv zeta. destruct (restore_result _ _ _); reflexivity.
Qed.

(** ** Exporting the environment *)

(** When [mise env --json] succeeds but its output does not parse,
    [setEnvVars] throws the parser's error and exports nothing: the
    environment is unchanged. *)
Theorem setEnvVars_parse_error JSON_parse (w : world) (msg : string) :
  let dir := or_cwd (input_value w "install_dir") w in
  let out := exec_result w (env w) "mise" ["env"; "--json"] dir in
  exitCode out = 0%Z -> JSON_parse (stdout out) = inl msg ->
  setEnvVars JSON_parse w =
  (Throw (ErrorV msg),
   set_trace (trace w ++ mise_events ["env"; "--json"] dir
                ++ [EvStartGroup "Setting env vars"]) w).
Proof.
  cbv zeta. intros H0 Hj.
  pose proof (mise_eq ["env"; "--json"] w) as Hm. cbv zeta in Hm.
  unfold setEnvVars, miseEnv. rewrite bind_apply, Hm.
  rewrite (bool_decide_eq_true_2 _ H0). cbv beta iota.
  rewrite bind_apply, startGroup_eq. cbv beta iota.
  rewrite (bool_decide_eq_true_2 _ H0), Hj.
  unfold throw. cbn. rewrite <- !app_assoc. reflexivity.
Qed.

Lemma setEnvVars_parse_error_witness :
  fst (setEnvVars bad_json (sample_world false ∅))
  = Throw (ErrorV "Unexpected token J in JSON at position 0").
Proof.
  rewrite (setEnvVars_parse_error bad_json (sample_world false ∅) _ eq_refl eq_refl).
  reflexivity.
Defined.

Lemma string_app_nil_r (s : string) : s +:+ EmptyString = s.
Proof. induction s as [|c s IH]; [reflexivity | exact (f_equal (String c) IH)]. Qed.

Lemma split_go_cons d s : forall cur, exists x xs, split_go d s cur = x :: xs.
Proof.
  induction s as [|c s IH]; intros cur; cbn [split_go]; [eauto|].
  destruct (Ascii.eqb c d); eauto.
Qed.

Lemma split_go_concat d s : forall cur,
  String.concat (String d EmptyString) (split_go d s cur) = cur +:+ s.
Proof.
  induction s as [|c s IH]; intros cur; cbn [split_go].
  - cbn. symmetry. apply string_app_nil_r.
  - destruct (Ascii.eqb c d) eqn:Hc.
    + apply Ascii.eqb_eq in Hc. subst c.
      destruct (split_go_cons d s EmptyString) as (x & xs & Hs).
      specialize (IH EmptyString). rewrite Hs in IH |- *.
      change (cur +:+ String d EmptyString +:+ String.concat (String d EmptyString) (x :: xs)
              = cur +:+ String d s).
      rewrite IH. reflexivity.
    + rewrite IH, string_app_assoc. reflexivity.
Qed.

Lemma split_go_length d s : forall cur, List.length (split_go d s cur) = S (count_char d s).
Proof.
  induction s as [|c s IH]; intros cur; cbn [split_go count_char]; [reflexivity|].
  destruct (Ascii.eqb c d); cbn [List.length]; rewrite IH; reflexivity.
Qed.

(** When [mise env --json] reports PATH with the value [v], the segments
    [setEnvVars] adds one by one with [core.addPath] are exactly the pieces
    of [v] between delimiters: joined with the delimiter they give [v]
    back, and there is one more of them than there are delimiters in [v],
    so empty segments are added too. *)
Theorem setEnvVars_path_segments JSON_parse (w : world) (obj : list (string * string)) (v : string) :
  let dir := or_cwd (input_value w "install_dir") w in
  let out := exec_result w (env w) "mise" ["env"; "--json"] dir in
  let d := path_delimiter w in
  exitCode out = 0%Z -> JSON_parse (stdout out) = inr obj ->
  NoDup (map fst obj) -> In ("PATH", v) obj ->
  exists w' ext, setEnvVars JSON_parse w = (Normal tt, w') /\ trace w' = trace w ++ ext /\
    String.concat (String d EmptyString) (added_paths ext) = v /\
    List.length (added_paths ext) = S (count_char d v).
Proof.
  cbv zeta. intros H0 Hj Hnd Hin.
  rewrite (setEnvVars_success JSON_parse w obj H0 Hj).
  eexists _, _. split; [reflexivity|]. split; [reflexivity|].
  rewrite added_paths_app. cbn [added_paths flat_map mise_events app].
  fold (added_paths (flat_map (export_events (path_delimiter w)) obj)).
  rewrite (added_paths_export_events _ obj Hnd), (find_PATH obj v Hnd Hin).
  cbn [snd]. unfold split. split; [apply split_go_concat | apply split_go_length].
Qed.

Lemma setEnvVars_path_segments_witness :
  exists w' ext, setEnvVars sample_json path_world = (Normal tt, w') /\
    trace w' = trace path_world ++ ext /\
    String.concat ":" (added_paths ext) = "/a:/b" /\ List.length (added_paths ext) = 2.
Proof.
  destruct (setEnvVars_path_segments sample_json path_world
              [("FOO", "bar"); ("PATH", "/a:/b")] "/a:/b")
    as (w' & ext & E & Et & Hc & Hl);
    [reflexivity | reflexivity | apply (bool_decide_unpack _); vm_compute; exact I
    | right; left; reflexivity |].
  exists w', ext. split; [exact E|]. split; [exact Et|]. split; [exact Hc | exact Hl].
Defined.

(** ** The pre-install variables *)

Lemma set_if_unset_comm k v k' v' e :
  k <> k' ->
  set_if_unset k v (set_if_unset k' v' e) = set_if_unset k' v' (set_if_unset k v e).
Proof.
  intros Hk. unfold set_if_unset at 1 3.
  rewrite !set_if_unset_other by congruence.
  unfold set_if_unset.
  destruct (negb (truthy (e !! k))), (negb (truthy (e !! k'))); try reflexivity.
  apply insert_insert_ne. exact Hk.
Qed.

Lemma set_if_unset_idem k v e :
  set_if_unset k v (set_if_unset k v e) = set_if_unset k v e.
Proof.
  unfold set_if_unset at 2 3. destruct (negb (truthy (e !! k))) eqn:He.
  - unfold set_if_unset. rewrite lookup_insert_eq.
    destruct (negb (truthy (Some v))); [apply insert_insert_eq | reflexivity].
  - unfold set_if_unset. rewrite He. reflexivity.
Qed.

(** Running [setEnvVarsPreInstall] a second time changes nothing more in
    the environment: after the first run each of the three variables is
    either kept or holds the default the second run would give it. *)
Theorem setEnvVarsPreInstall_idempotent (w : world) :
  exists w1 w2, setEnvVarsPreInstall w = (Normal tt, w1) /\
    setEnvVarsPreInstall w1 = (Normal tt, w2) /\ env w2 = env w1.
Proof.
  destruct (setEnvVarsPreInstall_eq w) as [t1 E1].
  set (w1 := set_env (preinstall_env w) (set_trace t1 w)).
  destruct (setEnvVarsPreInstall_eq w1) as [t2 E2].
  exists w1, (set_env (preinstall_env w1) (set_trace t2 w1)).
  split; [exact E1|]. split; [exact E2|]. cbn [env set_env].
  assert (Hi : input_value w1 "experimental" = input_value w "experimental").
  { unfold input_value. cbn [w1 env set_env].
    rewrite preinstall_env_other; [reflexivity|].
    intros H. vm_compute in H. intuition discriminate. }
  unfold preinstall_env at 1. rewrite Hi. cbn [w1 env cwd set_env set_trace].
  unfold preinstall_env.
  set (x := if (if String.eqb (input_value w "experimental") "true" then true else false)
            then "1" else "0").
  rewrite (set_if_unset_comm "MISE_TRUSTED_CONFIG_PATHS" _ "MISE_EXPERIMENTAL") by discriminate.
  rewrite (set_if_unset_comm "MISE_TRUSTED_CONFIG_PATHS" _ "MISE_YES") by discriminate.
  rewrite set_if_unset_idem.
  rewrite (set_if_unset_comm "MISE_YES" _ "MISE_EXPERIMENTAL") by discriminate.
  rewrite set_if_unset_idem, set_if_unset_idem. reflexivity.
Qed.

(** ** What a run may start and write *)

Global Instance Allowed_monoid : TraceMonoid Allowed.
Proof.
  split; [constructor |]. intros l1 l2 H1 H2. apply Forall_app; auto.
Qed.

Section AllowedTraces.

Variable hashFiles : gmap string string -> string -> string.
Variable JSON_parse : string -> string + list (string * string).

Ltac allowed_solve :=
  repeat (traces_step || match goal with
                         | |- Allowed _ => unfold Allowed; repeat constructor
                         end).

Lemma allowed_addPathElements els : traces Allowed (addPathElements els).
Proof.
  induction els as [|p els IH]; cbn [addPathElements];
    unfold info, addPath; allowed_solve.
Qed.
#[local] Hint Resolve allowed_addPathElements : traces_db.

Lemma allowed_exportEntries entries : traces Allowed (exportEntries entries).
Proof.
  induction entries as [|[k v] rest IH]; cbn [exportEntries];
    unfold setEnv, info, exportVariable; allowed_solve.
Qed.
#[local] Hint Resolve allowed_exportEntries : traces_db.


End AllowedTraces.


(** When MISE_EXPERIMENTAL is not set, [setEnvVarsPreInstall] sets it to
    [1] exactly when the trimmed [experimental] input is the string
    [true]; any other value ([True], [TRUE], [yes], empty) gives [0] and,
    unlike the [cache] and [install] inputs, never fails. *)
Theorem preinstall_experimental_flag (w : world) :
  env w !! "MISE_EXPERIMENTAL" = None ->
  exists w', setEnvVarsPreInstall w = (Normal tt, w') /\
    (env w' !! "MISE_EXPERIMENTAL" = Some "1" <-> input_value w "experimental" = "true") /\
    (env w' !! "MISE_EXPERIMENTAL" = Some "0" <-> input_value w "experimental" <> "true").
Proof.
  intros He. destruct (setEnvVarsPreInstall_eq w) as [t E].
  eexists. split; [exact E|]. cbn [env set_env].
  rewrite (preinstall_env_var w "MISE_EXPERIMENTAL") by (right; right; left; reflexivity).
  rewrite set_if_unset_set by (rewrite He; reflexivity).
  unfold preinstall_default. cbn [String.eqb Ascii.eqb Bool.eqb andb].
  destruct (String.eqb_spec (input_value w "experimental") "true"); split; split;
    intros; congruence.
Qed.

Lemma preinstall_experimental_flag_witness :
  exists w', setEnvVarsPreInstall capital_true_world = (Normal tt, w') /\
    env w' !! "MISE_EXPERIMENTAL" = Some "0".
Proof.
  destruct (preinstall_experimental_flag capital_true_world eq_refl) as (w' & E & _ & H0).
  exists w'. split; [exact E|]. apply H0. vm_compute. discriminate.
Defined.
